(** * First-aid triage service (app.py): decision tree and symptom classifier

    A shallow embedding of [app.py] and the properties of its two endpoints,
    [/api/symptom_check] and [/api/answer], of the fixed question tree they
    walk, and of the start-up check on the API key. *)

From stdpp Require Import base option list relations gmap.
From Stdlib Require Import ZArith NArith Lia.
From Stdlib.Strings Require Import Byte.

Set Warnings "-register-all".

(** ** Python strings

    A Python [str] is a sequence of Unicode code points.  String literals of
    the source are read as the code points of their (ASCII) bytes. *)

Record pystr := Str { codepoints : list N }.

Definition pystr_of_bytes (bs : list byte) : pystr :=
  Str (map (fun b => N.of_nat (Byte.to_nat b)) bs).

Definition bytes_of_pystr (s : pystr) : option (list byte) :=
  mapM (fun c => if (c <? 128)%N then Byte.of_nat (N.to_nat c) else None)
       (codepoints s).

Declare Scope pystr_scope.
Delimit Scope pystr_scope with py.
Bind Scope pystr_scope with pystr.
String Notation pystr pystr_of_bytes bytes_of_pystr : pystr_scope.
Open Scope pystr_scope.

#[global] Instance pystr_eq_dec : EqDecision pystr.
Proof. solve_decision. Defined.

#[global] Instance pystr_countable : Countable pystr :=
  inj_countable' codepoints Str (fun s => match s with Str _ => eq_refl end).

(** [str.isspace] on one code point: the ASCII table of CPython
    (TAB..CR, FS..US, SPACE) and the Unicode white space above it. *)
Definition is_space (c : N) : bool :=
  ((9 <=? c) && (c <=? 13) || (28 <=? c) && (c <=? 32)
   || (c =? 133) || (c =? 160) || (c =? 5760)
   || (8192 <=? c) && (c <=? 8202)
   || (c =? 8232) || (c =? 8233) || (c =? 8239) || (c =? 8287)
   || (c =? 12288))%N.

Fixpoint lstrip_cps (l : list N) : list N :=
  match l with
  | c :: l' => if is_space c then lstrip_cps l' else l
  | [] => []
  end.

Definition rstrip_cps (l : list N) : list N := rev (lstrip_cps (rev l)).

(** [s.strip()] *)
Definition strip (s : pystr) : pystr := Str (rstrip_cps (lstrip_cps (codepoints s))).

Fixpoint prefix_cps (p l : list N) : bool :=
  match p, l with
  | [], _ => true
  | c :: p', d :: l' => (c =? d)%N && prefix_cps p' l'
  | _ :: _, [] => false
  end.

(** [s.startswith(p)] *)
Definition startswith (s p : pystr) : bool := prefix_cps (codepoints p) (codepoints s).

(** ** Python values and exceptions

    The values [json.loads] produces: request bodies, the body of the
    external service's reply, and the dictionaries handed to [jsonify].
    A float is kept as its binary64 bit pattern; the program never does
    arithmetic on one. *)

Inductive pyval :=
| PNone
| PBool (b : bool)
| PInt (z : Z)
| PFloat (bits : N)
| PStr (s : pystr)
| PList (l : list pyval)
| PDict (d : gmap pystr pyval).

(** The exceptions the program can meet; all derive from [Exception]. *)
Inductive exn :=
| KeyError (key : pyval)
| IndexError
| TypeError
| AttributeError
| ValueError (msg : pystr)
| JSONDecodeError
| HTTPError (status : Z)
| RequestException.

Inductive exc (A : Type) :=
| Ok (a : A)
| Raise (e : exn).
Arguments Ok {A} a.
Arguments Raise {A} e.

#[global] Instance exc_ret : MRet exc := fun _ a => Ok a.
#[global] Instance exc_bind : MBind exc := fun _ _ f c =>
  match c with
  | Ok a => f a
  | Raise e => Raise e
  end.

(** [try: c  except Exception as e: h e].  Every exception of [exn] is an
    [Exception], so the handler takes them all. *)
Definition try_except {A} (c : exc A) (h : exn -> exc A) : exc A :=
  match c with
  | Ok a => Ok a
  | Raise e => h e
  end.

(** [bool(v)] *)
Definition truthy (v : pyval) : bool :=
  match v with
  | PNone => false
  | PBool b => b
  | PInt z => negb (z =? 0)%Z
  | PFloat bits => negb (N.land bits (2 ^ 63 - 1) =? 0)%N
  | PStr s => match codepoints s with [] => false | _ => true end
  | PList l => match l with [] => false | _ => true end
  | PDict d => negb (size d =? 0)%nat
  end.

(** [v == s] for a [str] literal [s] *)
Definition eq_str (v : pyval) (s : pystr) : bool :=
  match v with
  | PStr t => bool_decide (t = s)
  | _ => false
  end.

(** [d[k]] on a dictionary whose keys are all [str]: a key of another
    hashable type is simply absent, a list or dict key is unhashable. *)
Definition dict_getitem {V} (d : gmap pystr V) (k : pyval) : exc V :=
  match k with
  | PStr s => match d !! s with
              | Some v => Ok v
              | None => Raise (KeyError k)
              end
  | PList _ | PDict _ => Raise TypeError
  | PNone | PBool _ | PInt _ | PFloat _ => Raise (KeyError k)
  end.

(** [l[i]] for a sequence of length [length l], negative indices counted
    from the end. *)
Definition seq_getitem {A} (l : list A) (i : Z) : exc A :=
  let n := Z.of_nat (length l) in
  let j := if (i <? 0)%Z then (i + n)%Z else i in
  if (j <? 0)%Z || (n <=? j)%Z then Raise IndexError
  else match l !! Z.to_nat j with
       | Some x => Ok x
       | None => Raise IndexError
       end.

(** [v['key']] *)
Definition subscript_str (v : pyval) (k : pystr) : exc pyval :=
  match v with
  | PDict d => dict_getitem d (PStr k)
  | PList _ | PStr _ => Raise TypeError
  | PNone | PBool _ | PInt _ | PFloat _ => Raise TypeError
  end.

(** [v[i]] for an integer [i] *)
Definition subscript_int (v : pyval) (i : Z) : exc pyval :=
  match v with
  | PList l => seq_getitem l i
  | PStr s => c ← seq_getitem (codepoints s) i; Ok (PStr (Str [c]))
  | PDict d => Raise (KeyError (PInt i))
  | PNone | PBool _ | PInt _ | PFloat _ => Raise TypeError
  end.

(** [v.strip()] *)
Definition method_strip (v : pyval) : exc pystr :=
  match v with
  | PStr s => Ok (strip s)
  | _ => Raise AttributeError
  end.

(** [v.get(k)]: only a dict has the method. *)
Definition method_get (v : pyval) (k : pystr) : exc pyval :=
  match v with
  | PDict d => Ok (default PNone (d !! k))
  | _ => Raise AttributeError
  end.

(** ** Module level: the API key and the two tables *)

(** [os.getenv(name)] *)
Definition getenv (environ : gmap pystr pystr) (name : pystr) : option pystr :=
  environ !! name.

(** The key read at import time, and the check that follows it:
    [if not GEMINI_API_KEY: raise ValueError(...)]. *)
Definition GEMINI_API_KEY (environ : gmap pystr pystr) : exc pystr :=
  match getenv environ "GEMINI_API_KEY" with
  | Some key =>
      if negb (truthy (PStr key))
      then Raise (ValueError "GEMINI_API_KEY environment variable not set.")
      else Ok key
  | None => Raise (ValueError "GEMINI_API_KEY environment variable not set.")
  end.

Definition questions : gmap pystr (gmap pystr pystr) :=
  {[ "start" :=
       {[ "question" := "Are they conscious and responsive?";
          "yes" := "q1_a";
          "no" := "q1_b" ]};
     "q1_a" :=
       {[ "question" := "Are they breathing?";
          "yes" := "q2_a";
          "no" := "diag_unconscious_not_breathing" ]};
     "q1_b" :=
       {[ "question" := "Do they have a pulse?";
          "yes" := "diag_unconscious_breathing";
          "no" := "diag_unconscious_no_pulse" ]};
     "q2_a" :=
       {[ "question" := "Is there any severe bleeding?";
          "yes" := "diag_bleeding";
          "no" := "q3_a" ]};
     "q3_a" :=
       {[ "question" := "Are they clutching their chest or experiencing severe chest pain?";
          "yes" := "diag_heart_attack";
          "no" := "q4_a" ]};
     "q4_a" :=
       {[ "question" := "Are they exhibiting facial drooping, arm weakness, or slurred speech?";
          "yes" := "diag_stroke";
          "no" := "q5_a" ]};
     "q5_a" :=
       {[ "question" := "Are they experiencing a sudden, uncontrollable shaking of their body?";
          "yes" := "diag_seizure";
          "no" := "q6_a" ]};
     "q6_a" :=
       {[ "question" := "Do they have a known history of severe allergies or are they having trouble breathing with swelling?";
          "yes" := "diag_allergic_reaction";
          "no" := "diag_general_ok" ]} ]}.

Definition diagnoses : gmap pystr pystr :=
  {[ "diag_unconscious_not_breathing" := "Possible Cardiac Arrest. Start CPR immediately and call for an AED. You should have already called for emergency services.";
     "diag_unconscious_breathing" := "Possible Unconscious but Breathing. Place them in the recovery position and monitor their breathing. You should have already called for emergency services.";
     "diag_unconscious_no_pulse" := "Possible Cardiac Arrest. Start CPR immediately. You should have already called for emergency services.";
     "diag_bleeding" := "Possible Severe Bleeding. Apply direct pressure to the wound with a clean cloth. Elevate the injured area if possible. You should have already called for emergency services.";
     "diag_heart_attack" := "Possible Heart Attack. Keep the person calm and seated. Loosen any tight clothing. You should have already called for emergency services.";
     "diag_stroke" := "Possible Stroke. Remember the FAST acronym (Face, Arm, Speech, Time). Do not give them anything to eat or drink. You should have already called for emergency services.";
     "diag_seizure" := "Possible Seizure. Protect the person from injury by moving objects away. Do not restrain them. You should have already called for emergency services.";
     "diag_allergic_reaction" := "Possible Anaphylactic Shock. If they have an epinephrine auto-injector, assist them in using it. You should have already called for emergency services.";
     "diag_general_ok" := "The person may be fine or have a less critical condition. However, if symptoms persist or worsen, please seek professional medical help immediately." ]}.

(** ** The symptom classifier *)

(** What [requests.post] gives back: an exception, or a response with its
    status code and its body, [None] when the body is not JSON. *)
Record Response := { status_code : Z; json_body : option pyval }.

Inductive post_outcome :=
| PostRaises (e : exn)
| PostReturns (response : Response).

(** [response.raise_for_status()] *)
Definition raise_for_status (response : Response) : exc unit :=
  if (400 <=? status_code response)%Z && (status_code response <? 600)%Z
  then Raise (HTTPError (status_code response))
  else Ok tt.

(** [response.json()] *)
Definition Response_json (response : Response) : exc pyval :=
  match json_body response with
  | Some v => Ok v
  | None => Raise JSONDecodeError
  end.

Definition diagnosis_categories : gmap pystr pystr :=
  {[ "Cardiac Arrest" := "diag_unconscious_not_breathing";
     "Breathing Emergency" := "diag_unconscious_breathing";
     "Severe Bleeding" := "diag_bleeding";
     "Heart Attack" := "diag_heart_attack";
     "Stroke" := "diag_stroke";
     "Seizure" := "diag_seizure";
     "Allergic Reaction" := "diag_allergic_reaction" ]}.

(** [result['candidates'][0]['content']['parts'][0]['text'].strip()] *)
Definition ai_match_of (result : pyval) : exc pystr :=
  candidates ← subscript_str result "candidates";
  candidate ← subscript_int candidates 0;
  content ← subscript_str candidate "content";
  parts ← subscript_str content "parts";
  part ← subscript_int parts 0;
  text ← subscript_str part "text";
  method_strip text.

Section Classifier.

(** The external service: the outcome of the one [requests.post] call made
    for the prompt built from [symptoms].  Building the prompt and the
    payload raises nothing and happens before the call. *)
Variable requests_post : pyval -> post_outcome.

Definition post (symptoms : pyval) : exc Response :=
  match requests_post symptoms with
  | PostRaises e => Raise e
  | PostReturns response => Ok response
  end.

(** The handler also prints the exception; standard output is not part of
    the model. *)
Definition call_ai_for_symptom_check (symptoms : pyval) : exc pystr :=
  try_except
    (response ← post symptoms;
     _ ← raise_for_status response;
     result ← Response_json response;
     ai_match ← ai_match_of result;
     if bool_decide (is_Some (diagnosis_categories !! ai_match)) then
       if bool_decide (ai_match = "Cardiac Arrest") then Ok "q1_a"
       else if bool_decide (ai_match = "Breathing Emergency") then Ok "q1_b"
       else if bool_decide (ai_match = "Severe Bleeding") then Ok "q2_a"
       else if bool_decide (ai_match = "Heart Attack") then Ok "q3_a"
       else if bool_decide (ai_match = "Stroke") then Ok "q4_a"
       else if bool_decide (ai_match = "Seizure") then Ok "q5_a"
       else if bool_decide (ai_match = "Allergic Reaction") then Ok "q6_a"
       else Ok "start"  (* no branch taken: on to line 124 *)
     else Ok "start")
    (fun e => Ok "start").

(** ** The endpoints *)

(** [POST /api/symptom_check], from the parsed request body. *)
Definition symptom_check (data : pyval) : exc pyval :=
  symptoms ← method_get data "symptoms";
  if negb (truthy symptoms) then
    Ok (PDict {[ "status" := PStr "error";
                 "message" := PStr "No symptoms provided." ]})
  else
    next_question_id ← call_ai_for_symptom_check symptoms;
    fallback ← dict_getitem questions (PStr "start");
    let first_question := default fallback (questions !! next_question_id) in
    question ← dict_getitem first_question (PStr "question");
    Ok (PDict {[ "status" := PStr "question";
                 "next_q_id" := PStr next_question_id;
                 "question" := PStr question ]}).

End Classifier.

(** [POST /api/answer], from the parsed request body. *)
Definition answer (data : pyval) : exc pyval :=
  current_q_id ← method_get data "current_q_id";
  answer ← method_get data "answer";
  next_q_id ←
    (if eq_str answer "initial" then Ok "start"
     else node ← dict_getitem questions current_q_id;
          dict_getitem node answer);
  if startswith next_q_id "diag_" then
    diagnosis ← dict_getitem diagnoses (PStr next_q_id);
    Ok (PDict {[ "status" := PStr "diagnosis";
                 "diagnosis" := PStr diagnosis ]})
  else
    next_question ← dict_getitem questions (PStr next_q_id);
    question ← dict_getitem next_question (PStr "question");
    Ok (PDict {[ "status" := PStr "question";
                 "next_q_id" := PStr next_q_id;
                 "question" := PStr question ]}).

(** [app] as the top-level code of the module leaves it.  The key check of
    line 10 runs before any route is registered and before [app.run]: when
    it raises, the import stops and there is nothing to serve. *)
Record routes := {
  route_symptom_check : (pyval -> post_outcome) -> pyval -> exc pyval;
  route_answer : pyval -> exc pyval
}.

Definition app (environ : gmap pystr pystr) : exc routes :=
  _ ← GEMINI_API_KEY environ;
  Ok {| route_symptom_check := symptom_check; route_answer := answer |}.

(** ** Requests, replies and the tree as a graph *)

(** The body [{"current_q_id": cur, "answer": ans}] of an [/api/answer]
    request. *)
Definition answer_request (current_q_id ans : pyval) : pyval :=
  PDict {[ "current_q_id" := current_q_id; "answer" := ans ]}.

(** The two shapes of a successful reply. *)
Definition question_reply (next_q_id question : pystr) : pyval :=
  PDict {[ "status" := PStr "question";
           "next_q_id" := PStr next_q_id;
           "question" := PStr question ]}.

Definition diagnosis_reply (diagnosis : pystr) : pyval :=
  PDict {[ "status" := PStr "diagnosis"; "diagnosis" := PStr diagnosis ]}.

(** [questions[n][a]] when both lookups succeed. *)
Definition transition (n a : pystr) : option pystr :=
  node ← questions !! n; node !! a.

(** An edge of the tree: a yes or a no transition. *)
Definition edge (n m : pystr) : Prop :=
  transition n "yes" = Some m \/ transition n "no" = Some m.

Definition in_tree (id : pystr) : Prop :=
  is_Some (questions !! id) \/ is_Some (diagnoses !! id).

#[global] Instance in_tree_dec id : Decision (in_tree id).
Proof. unfold in_tree. apply _. Defined.

Definition reachable (id : pystr) : Prop := rtc edge "start" id.

Definition successors (n : pystr) : list pystr :=
  omap (transition n) ["yes"; "no"].

(** Breadth-first exploration: the ids met within [fuel] rounds. *)
Fixpoint explore (fuel : nat) (frontier : list pystr) : list pystr :=
  match fuel with
  | O => frontier
  | S fuel' => frontier ++ explore fuel' (frontier ≫= successors)
  end.

(** Distance of a question from the root; every leaf sits below all of
    them. *)
Definition level (id : pystr) : nat :=
  default 7%nat
    (({[ "start" := 0; "q1_a" := 1; "q1_b" := 1; "q2_a" := 2; "q3_a" := 3;
         "q4_a" := 4; "q5_a" := 5; "q6_a" := 6 ]} : gmap pystr nat) !! id)%nat.

(** A caller walking the quiz: each answer is sent with the [next_q_id] of
    the previous reply, until a reply carries none (a diagnosis). *)
Fixpoint replay (current_q_id : pyval) (answers : list pyval) : exc (list pyval) :=
  match answers with
  | [] => Ok []
  | a :: rest =>
      reply ← answer (answer_request current_q_id a);
      match reply with
      | PDict d =>
          match d !! "next_q_id" with
          | Some next => replies ← replay next rest; Ok (reply :: replies)
          | None => Ok [reply]
          end
      | _ => Ok [reply]
      end
  end.

(** ** The outcomes of the external call, as the specification words them *)

(** The text of a well-formed reply body:
    [{"candidates": [{"content": {"parts": [{"text": <str>}, ...]}}, ...]}]. *)
Definition response_text (body : pyval) : option pystr :=
  match body with
  | PDict d =>
      match d !! "candidates" with
      | Some (PList (PDict candidate :: _)) =>
          match candidate !! "content" with
          | Some (PDict content) =>
              match content !! "parts" with
              | Some (PList (PDict part :: _)) =>
                  match part !! "text" with
                  | Some (PStr text) => Some text
                  | _ => None
                  end
              | _ => None
              end
          | _ => None
          end
      | _ => None
      end
  | _ => None
  end.

(** The call failed: network error, error status, body that is not JSON, or
    body without the expected fields. *)
Inductive call_failed : post_outcome -> Prop :=
| failed_request e :
    call_failed (PostRaises e)
| failed_status response :
    (400 <= status_code response < 600)%Z ->
    call_failed (PostReturns response)
| failed_malformed response :
    json_body response = None ->
    call_failed (PostReturns response)
| failed_missing_field response body :
    json_body response = Some body ->
    response_text body = None ->
    call_failed (PostReturns response).

(** The call succeeded and the service answered with the text [r]. *)
Definition call_returned (o : post_outcome) (r : pystr) : Prop :=
  exists response body,
    o = PostReturns response /\
    ~ (400 <= status_code response < 600)%Z /\
    json_body response = Some body /\
    response_text body = Some r.

(** The label-to-entry-node pairs that the if/elif chain of
    [call_ai_for_symptom_check] spells out. *)
Definition entry_mapping : list (pystr * pystr) :=
  [ ("Cardiac Arrest", "q1_a"); ("Breathing Emergency", "q1_b");
    ("Severe Bleeding", "q2_a"); ("Heart Attack", "q3_a");
    ("Stroke", "q4_a"); ("Seizure", "q5_a"); ("Allergic Reaction", "q6_a") ].

(** Lines 175-188 of [answer]: the reply once [next_q_id] is known. *)
Definition reply_for (next_q_id : pystr) : exc pyval :=
  if startswith next_q_id "diag_" then
    diagnosis ← dict_getitem diagnoses (PStr next_q_id);
    Ok (diagnosis_reply diagnosis)
  else
    next_question ← dict_getitem questions (PStr next_q_id);
    question ← dict_getitem next_question (PStr "question");
    Ok (question_reply next_q_id question).

Definition is_ok {A} (c : exc A) : bool :=
  match c with Ok _ => true | Raise _ => false end.

(** [KeyError] and [TypeError]: what a failed subscript raises. *)
Definition lookup_error (e : exn) : bool :=
  match e with KeyError _ | TypeError => true | _ => false end.

Definition raises_lookup_error {A} (c : exc A) : bool :=
  match c with Raise e => lookup_error e | Ok _ => false end.

(** [cur] is the id of a question. *)
Definition question_id (cur : pyval) : Prop :=
  exists n, cur = PStr n /\ is_Some (questions !! n).

(** Entry-by-entry checks of the tables. *)
Definition answers : list pystr := ["yes"; "no"].

Definition closed_node (node : gmap pystr pystr) : bool :=
  forallb (fun a => match node !! a with
                    | Some m => bool_decide (in_tree m)
                    | None => false
                    end) answers.

Definition descends (n : pystr) (node : gmap pystr pystr) : bool :=
  forallb (fun a => match node !! a with
                    | Some m => (level n <? level m)%nat
                    | None => true
                    end) answers.

Definition leaf_ok (id text : pystr) : bool :=
  startswith id "diag_" && negb (bool_decide (text = "")) &&
  bool_decide (id ∈ explore 7 ["start"]).

(** What the second half of [answer] does with the value stored under key
    [k] of a question: a reply for the two answers, a failed lookup for the
    question text. *)
Definition answer_key_ok (k v : pystr) : bool :=
  if bool_decide (k ∈ answers) then is_ok (reply_for v)
  else raises_lookup_error (reply_for v).

(** Following a list of answers through the tables. *)
Definition walk (n : pystr) (path : list pystr) : option pystr :=
  foldl (fun cur a => n ← cur; transition n a) (Some n) path.

(** Lines 107-124 of [call_ai_for_symptom_check]: from the trimmed text to
    the id returned. *)
Definition entry_for (ai_match : pystr) : exc pystr :=
  if bool_decide (is_Some (diagnosis_categories !! ai_match)) then
    if bool_decide (ai_match = "Cardiac Arrest") then Ok "q1_a"
    else if bool_decide (ai_match = "Breathing Emergency") then Ok "q1_b"
    else if bool_decide (ai_match = "Severe Bleeding") then Ok "q2_a"
    else if bool_decide (ai_match = "Heart Attack") then Ok "q3_a"
    else if bool_decide (ai_match = "Stroke") then Ok "q4_a"
    else if bool_decide (ai_match = "Seizure") then Ok "q5_a"
    else if bool_decide (ai_match = "Allergic Reaction") then Ok "q6_a"
    else Ok "start"
  else Ok "start".

(** The ids the classifier can return. *)
Definition entry_ids : list pystr :=
  ["start"; "q1_a"; "q1_b"; "q2_a"; "q3_a"; "q4_a"; "q5_a"; "q6_a"].

(** A reply of the service, status 200, whose body carries [text] where
    the classifier looks for it. *)
Definition service_reply (text : pystr) : post_outcome :=
  PostReturns
    {| status_code := 200;
       json_body :=
         Some (PDict {[ "candidates" :=
                 PList [PDict {[ "content" :=
                   PDict {[ "parts" := PList [PDict {[ "text" := PStr text ]}] ]} ]}] ]}) |}.

(** ** Further vocabulary for the endpoints and the tables *)

(** [hash(v)] succeeds: a list and a dict are unhashable. *)
Definition hashable (v : pyval) : bool :=
  match v with
  | PList _ | PDict _ => false
  | _ => true
  end.

(** The reply of [symptom_check] to a request without symptoms. *)
Definition error_reply : pyval :=
  PDict {[ "status" := PStr "error"; "message" := PStr "No symptoms provided." ]}.

(** A row of [questions]: its key is no leaf id, it has exactly the three
    keys, and its text is neither an id nor prefixed like a leaf. *)
Definition question_row (n : pystr) (node : gmap pystr pystr) : bool :=
  negb (startswith n "diag_") && bool_decide (diagnoses !! n = None) &&
  bool_decide (dom node = {[ "question"; "yes"; "no" ]}) &&
  match node !! "question" with
  | Some q => negb (startswith q "diag_") && bool_decide (questions !! q = None)
  | None => false
  end.

(** A row of [diagnoses]: its key carries the prefix and is no question. *)
Definition leaf_row (id : pystr) : bool :=
  startswith id "diag_" && bool_decide (questions !! id = None).

(** All triples (question, answer, target) of the tree. *)
Definition edges : list (pystr * pystr * pystr) :=
  '(n, node) ← map_to_list questions;
  omap (fun a => m ← node !! a; Some (n, a, m)) answers.

(** The values [not v] holds of: [None], [False], zero, the empty string,
    list and dict.  A float is zero when all its bits but the sign are. *)
Inductive falsy : pyval -> Prop :=
| falsy_None : falsy PNone
| falsy_False : falsy (PBool false)
| falsy_int : falsy (PInt 0)
| falsy_float bits : N.land bits (2 ^ 63 - 1) = 0%N -> falsy (PFloat bits)
| falsy_str : falsy (PStr "")
| falsy_list : falsy (PList [])
| falsy_dict : falsy (PDict ∅).

(** A row of [diagnosis_categories]: the entry question paired with the
    label has the row's leaf one answer away. *)
Definition category_row (label leaf : pystr) : bool :=
  match (list_to_map entry_mapping : gmap pystr pystr) !! label with
  | Some id =>
      existsb (fun a => bool_decide (transition id a = Some leaf)) answers &&
      bool_decide (is_Some (diagnoses !! leaf))
  | None => false
  end.

(** * Properties *)

(** ** The error monad *)

Lemma bind_Ok {A B} (a : A) (f : A -> exc B) : (Ok a ≫= f) = f a.
Proof. reflexivity. Qed.

Lemma bind_Raise {A B} (e : exn) (f : A -> exc B) : (Raise e ≫= f) = Raise e.
Proof. reflexivity. Qed.

(** ** Facts about the two tables, checked entry by entry *)

Lemma questions_keys n :
  is_Some (questions !! n) <->
  n ∈ ["start"; "q1_a"; "q1_b"; "q2_a"; "q3_a"; "q4_a"; "q5_a"; "q6_a"].
Proof.
  rewrite <- elem_of_dom.
  assert (dom questions =
          list_to_set ["start"; "q1_a"; "q1_b"; "q2_a"; "q3_a"; "q4_a"; "q5_a"; "q6_a"])
    as -> by compute_done.
  apply elem_of_list_to_set.
Qed.

Lemma closed_nodes : map_Forall (fun _ node => closed_node node = true) questions.
Proof. compute_done. Qed.

Lemma descending_nodes : map_Forall (fun n node => descends n node = true) questions.
Proof. compute_done. Qed.

Lemma leaves_ok : map_Forall (fun id text => leaf_ok id text = true) diagnoses.
Proof. compute_done. Qed.

Lemma explored_all :
  dom questions ∪ dom diagnoses ⊆@{gset pystr} list_to_set (explore 7 ["start"]).
Proof. compute_done. Qed.

(** ** The tree as a graph *)

Lemma edge_inv n m :
  edge n m ->
  exists node a, questions !! n = Some node /\ a ∈ answers /\ node !! a = Some m.
Proof.
  unfold edge, transition.
  intros [H|H]; destruct (questions !! n) as [node|] eqn:Hn; simplify_eq/=;
    exists node; eexists; (split; [reflexivity|]); (split; [|eassumption]);
    unfold answers; set_solver.
Qed.

Lemma successors_edge n m : m ∈ successors n -> edge n m.
Proof.
  unfold successors. rewrite list_elem_of_omap.
  intros (a & Ha & Hm). unfold edge.
  apply elem_of_cons in Ha as [->|Ha]; [by left|].
  apply elem_of_cons in Ha as [->|Ha]; [by right|].
  by apply elem_of_nil in Ha.
Qed.

Lemma explore_reachable fuel : forall frontier,
  Forall reachable frontier -> Forall reachable (explore fuel frontier).
Proof.
  induction fuel as [|fuel IH]; intros frontier Hf; simpl; [done|].
  apply Forall_app; split; [done|].
  apply IH. rewrite Forall_forall. intros m Hm.
  apply list_elem_of_bind in Hm as (n & Hm & Hn).
  rewrite Forall_forall in Hf.
  eapply rtc_r; [by apply Hf | by apply successors_edge].
Qed.

Lemma explored_reachable id : id ∈ explore 7 ["start"] -> reachable id.
Proof.
  revert id. apply Forall_forall, explore_reachable.
  apply Forall_singleton. unfold reachable. reflexivity.
Qed.

Lemma in_tree_reachable id : in_tree id -> reachable id.
Proof.
  intros Hid. apply explored_reachable.
  apply (elem_of_list_to_set (C:=gset pystr)), explored_all.
  apply elem_of_union.
  destruct Hid as [H|H]; apply elem_of_dom in H; auto.
Qed.

Lemma edge_descends n m : edge n m -> (level n < level m)%nat.
Proof.
  intros (node & a & Hn & Ha & Hm)%edge_inv.
  pose proof (descending_nodes n node Hn) as Hd. unfold descends in Hd.
  rewrite forallb_forall in Hd. specialize (Hd a).
  rewrite Hm in Hd. apply Nat.ltb_lt, Hd. by apply list_elem_of_In.
Qed.

Lemma path_descends n m : tc edge n m -> (level n < level m)%nat.
Proof.
  induction 1 as [n m H|n k m H _ IH].
  - by apply edge_descends.
  - apply edge_descends in H. lia.
Qed.

(** C5: the tree is closed (every yes/no transition of every question
    exists and leads to a question or to a diagnosis), it has no cycle, and
    every question and every diagnosis is reachable from ['start']. *)
Theorem tree_closed_acyclic_connected :
  (forall n node, questions !! n = Some node ->
     forall a, a ∈ ["yes"; "no"] ->
       exists m, node !! a = Some m /\ in_tree m) /\
  (forall n, ~ tc edge n n) /\
  (forall id, in_tree id -> reachable id).
Proof.
  split; [|split].
  - intros n node Hn a Ha.
    pose proof (closed_nodes n node Hn) as Hc. unfold closed_node in Hc.
    rewrite forallb_forall in Hc. specialize (Hc a).
    destruct (node !! a) as [m|].
    + exists m. split; [done|].
      eapply bool_decide_unpack, Is_true_true, Hc. by apply list_elem_of_In.
    + discriminate Hc. by apply list_elem_of_In.
  - intros n Hn. apply path_descends in Hn. lia.
  - apply in_tree_reachable.
Qed.

Lemma tree_closed_acyclic_connected_witness :
  (exists m, ({[ "question" := "Do they have a pulse?";
                 "yes" := "diag_unconscious_breathing";
                 "no" := "diag_unconscious_no_pulse" ]} : gmap pystr pystr) !! "no"
             = Some m /\ in_tree m) /\
  ~ tc edge "q3_a" "q3_a" /\
  reachable "diag_general_ok".
Proof.
  destruct tree_closed_acyclic_connected as (Hclosed & Hacyclic & Hreach).
  split; [|split].
  - apply (Hclosed "q1_b"); [reflexivity|].
    apply elem_of_cons. right. apply elem_of_cons. by left.
  - apply Hacyclic.
  - apply Hreach. right. vm_compute. eauto.
Defined.

(** C7: the diagnoses table has nine entries; each key starts with
    ['diag_'], carries a non-empty text, and is reachable from ['start']
    by yes/no transitions. *)
Theorem diagnoses_nonempty_and_reachable :
  size diagnoses = 9%nat /\
  forall id text, diagnoses !! id = Some text ->
    startswith id "diag_" = true /\ text <> "" /\ reachable id.
Proof.
  split; [compute_done|].
  intros id text Hid.
  pose proof (leaves_ok id text Hid) as Hl. unfold leaf_ok in Hl.
  apply andb_true_iff in Hl as [Hl Hr]. apply andb_true_iff in Hl as [Hp Ht].
  split; [done|]. split.
  - apply negb_true_iff, bool_decide_eq_false in Ht. done.
  - apply explored_reachable. by apply bool_decide_eq_true in Hr.
Qed.

Lemma diagnoses_nonempty_and_reachable_witness :
  startswith "diag_stroke" "diag_" = true /\
  "Possible Stroke. Remember the FAST acronym (Face, Arm, Speech, Time). Do not give them anything to eat or drink. You should have already called for emergency services." <> "" /\
  reachable "diag_stroke".
Proof.
  destruct diagnoses_nonempty_and_reachable as [_ H].
  apply (H "diag_stroke"). reflexivity.
Defined.

(** ** The answer endpoint *)

Lemma answer_keys_ok :
  map_Forall (fun _ node => map_Forall (fun k v => answer_key_ok k v = true) node)
             questions.
Proof. compute_done. Qed.

Lemma dict_getitem_Ok {V} (d : gmap pystr V) k v :
  dict_getitem d k = Ok v -> exists s, k = PStr s /\ d !! s = Some v.
Proof.
  destruct k as [| | | |s| |]; simpl; try discriminate.
  destruct (d !! s) as [w|] eqn:Hd; intros [=]; subst. by exists s.
Qed.

Lemma dict_getitem_Raise {V} (d : gmap pystr V) k e :
  dict_getitem d k = Raise e -> lookup_error e = true.
Proof.
  destruct k as [| | | |s| |]; simpl; try (intros [=]; by subst).
  destruct (d !! s); intros [=]; by subst.
Qed.

Lemma dict_getitem_lookup {V} (d : gmap pystr V) s v :
  d !! s = Some v -> dict_getitem d (PStr s) = Ok v.
Proof. simpl. by intros ->. Qed.

Lemma answer_unfold d :
  answer (PDict d) =
  next_q_id ←
    (if eq_str (default PNone (d !! "answer")) "initial" then Ok "start"
     else node ← dict_getitem questions (default PNone (d !! "current_q_id"));
          dict_getitem node (default PNone (d !! "answer")));
  reply_for next_q_id.
Proof. reflexivity. Qed.

Lemma reply_for_start :
  reply_for "start" = Ok (question_reply "start" "Are they conscious and responsive?").
Proof. reflexivity. Qed.

Lemma answer_initial d :
  d !! "answer" = Some (PStr "initial") ->
  answer (PDict d) = Ok (question_reply "start" "Are they conscious and responsive?").
Proof.
  intros Ha. rewrite answer_unfold, Ha. reflexivity.
Qed.

Lemma eq_str_false v s : v <> PStr s -> eq_str v s = false.
Proof.
  destruct v; simpl; try done.
  intros Hne. apply bool_decide_eq_false. congruence.
Qed.

Lemma answer_request_lookup cur ans :
  answer (answer_request cur ans) =
  next_q_id ←
    (if eq_str ans "initial" then Ok "start"
     else node ← dict_getitem questions cur; dict_getitem node ans);
  reply_for next_q_id.
Proof. reflexivity. Qed.

Lemma answer_not_initial cur ans :
  ans <> PStr "initial" ->
  answer (answer_request cur ans) =
  node ← dict_getitem questions cur;
  next_q_id ← dict_getitem node ans;
  reply_for next_q_id.
Proof.
  intros Hne. rewrite answer_request_lookup, eq_str_false by done.
  by destruct (dict_getitem questions cur).
Qed.

Lemma raises_lookup_error_inv {A} (c : exc A) :
  raises_lookup_error c = true -> exists e, c = Raise e /\ lookup_error e = true.
Proof. destruct c as [a|e]; simpl; [done|]. intros He. by exists e. Qed.

Lemma is_ok_inv {A} (c : exc A) : is_ok c = true -> exists a, c = Ok a.
Proof. destruct c as [a|e]; simpl; [|done]. intros _. by exists a. Qed.

Lemma answer_str_key cur ans n node a :
  ans <> PStr "initial" ->
  cur = PStr n -> questions !! n = Some node -> ans = PStr a ->
  answer (answer_request cur ans) = next_q_id ← dict_getitem node ans; reply_for next_q_id.
Proof.
  intros Hne -> Hn ->. rewrite answer_not_initial by done.
  by rewrite (dict_getitem_lookup _ _ _ Hn).
Qed.

(** Outside the two answers, a question only has its text to offer, and the
    text is no id: the request fails in the second lookup. *)
Lemma answer_bad_answer cur ans :
  ans <> PStr "initial" -> ans <> PStr "yes" -> ans <> PStr "no" ->
  exists e, answer (answer_request cur ans) = Raise e /\ lookup_error e = true.
Proof.
  intros Hi Hy Hn. rewrite answer_not_initial by done.
  destruct (dict_getitem questions cur) as [node|e] eqn:Hq.
  2:{ exists e. split; [done|]. by eapply dict_getitem_Raise. }
  apply dict_getitem_Ok in Hq as (n & -> & Hnode). rewrite bind_Ok.
  destruct (dict_getitem node ans) as [v|e] eqn:Ha.
  2:{ exists e. split; [done|]. by eapply dict_getitem_Raise. }
  apply dict_getitem_Ok in Ha as (k & -> & Hk). rewrite bind_Ok.
  pose proof (answer_keys_ok n node Hnode k v Hk) as Hok.
  unfold answer_key_ok in Hok. rewrite bool_decide_eq_false_2 in Hok.
  - by apply raises_lookup_error_inv.
  - unfold answers. rewrite !elem_of_cons, elem_of_nil. intros [->|[->|[]]]; done.
Qed.

Lemma answer_unknown_node cur ans :
  ans <> PStr "initial" -> ~ question_id cur ->
  exists e, answer (answer_request cur ans) = Raise e /\ lookup_error e = true.
Proof.
  intros Hi Hq. rewrite answer_not_initial by done.
  destruct (dict_getitem questions cur) as [node|e] eqn:Hc.
  - destruct Hq. apply dict_getitem_Ok in Hc as (n & -> & Hn).
    exists n. split; [done|]. by exists node.
  - exists e. split; [done|]. by eapply dict_getitem_Raise.
Qed.

Lemma answer_yes_no cur ans :
  question_id cur -> ans = PStr "yes" \/ ans = PStr "no" ->
  exists reply, answer (answer_request cur ans) = Ok reply.
Proof.
  intros (n & -> & [node Hn]) Ha.
  assert (exists a, ans = PStr a /\ a ∈ answers) as (a & -> & Hin).
  { unfold answers. destruct Ha as [-> | ->]; eexists; (split; [done|]);
      rewrite !elem_of_cons; auto. }
  rewrite answer_not_initial.
  2:{ intros [= ->]. revert Hin. unfold answers.
      rewrite !elem_of_cons, elem_of_nil. intros [?|[?|[]]]; done. }
  rewrite (dict_getitem_lookup _ _ _ Hn), bind_Ok.
  pose proof (closed_nodes n node Hn) as Hc. unfold closed_node in Hc.
  rewrite forallb_forall in Hc. specialize (Hc a (proj1 (list_elem_of_In _ _) Hin)).
  destruct (node !! a) as [m|] eqn:Hm; [|done].
  rewrite (dict_getitem_lookup _ _ _ Hm), bind_Ok.
  pose proof (answer_keys_ok n node Hn a m Hm) as Hok.
  unfold answer_key_ok in Hok. rewrite bool_decide_eq_true_2 in Hok by done.
  by apply is_ok_inv.
Qed.

(** C3 (as the code has it): with an answer other than the sentinel
    ['initial'], the request fails in a lookup ([KeyError], or [TypeError]
    for a list or dict; there is no separate error per cause) whenever the
    answer is neither ['yes'] nor ['no'] and whenever the node id is not a
    key of [questions]; for a key of [questions] and an answer ['yes'] or
    ['no'] it succeeds.  With the answer ['initial'] it returns the root
    question, whatever the node id. *)
Theorem answer_fails_only_outside_tree (cur ans : pyval) :
  (ans = PStr "initial" ->
   answer (answer_request cur ans) =
   Ok (question_reply "start" "Are they conscious and responsive?")) /\
  (ans <> PStr "initial" ->
   (ans <> PStr "yes" -> ans <> PStr "no" ->
    exists e, answer (answer_request cur ans) = Raise e /\ lookup_error e = true) /\
   (~ question_id cur ->
    exists e, answer (answer_request cur ans) = Raise e /\ lookup_error e = true) /\
   (question_id cur -> ans = PStr "yes" \/ ans = PStr "no" ->
    exists reply, answer (answer_request cur ans) = Ok reply)).
Proof.
  split.
  - intros ->. reflexivity.
  - intros Hi. split; [|split].
    + by apply answer_bad_answer.
    + by apply answer_unknown_node.
    + apply answer_yes_no.
Qed.

Lemma answer_fails_only_outside_tree_witness :
  (exists e, answer (answer_request (PStr "start") (PStr "maybe")) = Raise e /\
             lookup_error e = true) /\
  (exists e, answer (answer_request (PStr "q9_z") (PStr "yes")) = Raise e /\
             lookup_error e = true) /\
  (exists reply, answer (answer_request (PStr "q2_a") (PStr "no")) = Ok reply) /\
  answer (answer_request (PStr "q9_z") (PStr "initial")) =
  Ok (question_reply "start" "Are they conscious and responsive?").
Proof.
  split; [|split; [|split]].
  - destruct (answer_fails_only_outside_tree (PStr "start") (PStr "maybe"))
      as [_ H].
    destruct H as (H & _ & _); [discriminate|]. apply H; discriminate.
  - destruct (answer_fails_only_outside_tree (PStr "q9_z") (PStr "yes"))
      as [_ H].
    destruct H as (_ & H & _); [discriminate|]. apply H.
    intros (n & Hn & [node Hnode]). injection Hn as <-.
    vm_compute in Hnode. discriminate.
  - destruct (answer_fails_only_outside_tree (PStr "q2_a") (PStr "no"))
      as [_ H].
    destruct H as (_ & _ & H); [discriminate|]. apply H; [|by right].
    exists "q2_a". split; [reflexivity|]. vm_compute. eauto.
  - destruct (answer_fails_only_outside_tree (PStr "q9_z") (PStr "initial"))
      as [H _].
    apply H. reflexivity.
Defined.

(** C3, as stated, fails: ['initial'] is outside {yes, no} and the node id
    ['q9_z'] is no question, yet the request succeeds. *)
Lemma answer_initial_is_not_rejected :
  PStr "initial" <> PStr "yes" /\ PStr "initial" <> PStr "no" /\
  ~ question_id (PStr "q9_z") /\
  answer (answer_request (PStr "q9_z") (PStr "initial")) =
  Ok (question_reply "start" "Are they conscious and responsive?").
Proof.
  split; [discriminate|]. split; [discriminate|]. split; [|reflexivity].
  intros (n & [= <-] & [node Hn]). vm_compute in Hn. discriminate.
Qed.

(** C4 (as the code has it): the short-circuit is taken when the sentinel
    ['initial'] is the answer.  Then, for every current node id, ['initial']
    itself included, the reply is the question of the root ['start'], read
    from [questions], and no lookup of the current node id takes place. *)
Theorem answer_initial_returns_root (current_q_id : pyval) :
  answer (answer_request current_q_id (PStr "initial")) =
  Ok (question_reply "start" "Are they conscious and responsive?") /\
  answer (answer_request (PStr "initial") (PStr "initial")) =
  Ok (question_reply "start" "Are they conscious and responsive?") /\
  transition "start" "question" = Some "Are they conscious and responsive?".
Proof. split; [|split]; reflexivity. Qed.

(** C4, as stated, fails: with ['initial'] in the place of the current node
    id and a real answer, the node lookup is made and raises. *)
Lemma initial_node_id_is_looked_up :
  answer (answer_request (PStr "initial") (PStr "yes")) =
  Raise (KeyError (PStr "initial")) /\
  ~ (forall ans, exists reply,
       answer (answer_request (PStr "initial") ans) = Ok reply).
Proof.
  split; [reflexivity|].
  intros H. destruct (H (PStr "yes")) as [reply Hr]. discriminate Hr.
Qed.

(** C10: the short-circuit depends on the answer field alone.  A body whose
    answer is ['initial'] gets the root question whatever it holds, or does
    not hold, under [current_q_id]; a body whose [current_q_id] is
    ['initial'] and whose answer is anything else gets the ordinary lookup,
    which raises [KeyError('initial')]. *)
Theorem answer_shortcut_keyed_on_answer (d : gmap pystr pyval) :
  (d !! "answer" = Some (PStr "initial") ->
   answer (PDict d) =
   Ok (question_reply "start" "Are they conscious and responsive?")) /\
  (d !! "current_q_id" = Some (PStr "initial") ->
   d !! "answer" <> Some (PStr "initial") ->
   answer (PDict d) = Raise (KeyError (PStr "initial"))).
Proof.
  split; [apply answer_initial|].
  intros Hc Ha. rewrite answer_unfold, Hc.
  rewrite eq_str_false; [reflexivity|].
  destruct (d !! "answer") as [v|]; simpl; congruence.
Qed.

Lemma answer_shortcut_keyed_on_answer_witness :
  answer (PDict {[ "answer" := PStr "initial" ]}) =
  Ok (question_reply "start" "Are they conscious and responsive?") /\
  answer (PDict {[ "current_q_id" := PStr "diag_stroke"; "answer" := PStr "initial" ]}) =
  Ok (question_reply "start" "Are they conscious and responsive?") /\
  answer (PDict {[ "current_q_id" := PStr "initial"; "answer" := PStr "no" ]}) =
  Raise (KeyError (PStr "initial")) /\
  answer (PDict {[ "current_q_id" := PStr "initial" ]}) =
  Raise (KeyError (PStr "initial")).
Proof.
  split; [|split; [|split]].
  - apply (answer_shortcut_keyed_on_answer {[ "answer" := PStr "initial" ]}).
    reflexivity.
  - apply (answer_shortcut_keyed_on_answer
             {[ "current_q_id" := PStr "diag_stroke"; "answer" := PStr "initial" ]}).
    reflexivity.
  - apply (answer_shortcut_keyed_on_answer
             {[ "current_q_id" := PStr "initial"; "answer" := PStr "no" ]}).
    + reflexivity.
    + vm_compute. discriminate.
  - apply (answer_shortcut_keyed_on_answer {[ "current_q_id" := PStr "initial" ]}).
    + reflexivity.
    + vm_compute. discriminate.
Defined.

(** The deepest leaves are seven answers away from the root. *)
Remark longest_walk :
  walk "start" ["yes"; "yes"; "no"; "no"; "no"; "no"; "no"] = Some "diag_general_ok" /\
  level "q6_a" = 6%nat.
Proof. split; reflexivity. Qed.

(** C6: from ['start'] the answer ['no'] leads to the question of ['q1_b'],
    and from ['q1_b'] the answer ['yes'] to the diagnosis stored under
    ['diag_unconscious_breathing']; the walks no, yes and yes, yes, yes both
    end in a diagnosis, after two and three requests, within the bound of
    six. *)
Theorem answer_end_to_end :
  answer (answer_request (PStr "start") (PStr "no")) =
  Ok (question_reply "q1_b" "Do they have a pulse?") /\
  (exists text,
     diagnoses !! "diag_unconscious_breathing" = Some text /\
     answer (answer_request (PStr "q1_b") (PStr "yes")) = Ok (diagnosis_reply text)) /\
  (exists text replies,
     walk "start" ["no"; "yes"] = Some "diag_unconscious_breathing" /\
     diagnoses !! "diag_unconscious_breathing" = Some text /\
     replay (PStr "start") [PStr "no"; PStr "yes"] = Ok replies /\
     replies = [question_reply "q1_b" "Do they have a pulse?"; diagnosis_reply text] /\
     (length replies <= 6)%nat) /\
  (exists text replies,
     walk "start" ["yes"; "yes"; "yes"] = Some "diag_bleeding" /\
     diagnoses !! "diag_bleeding" = Some text /\
     replay (PStr "start") [PStr "yes"; PStr "yes"; PStr "yes"] = Ok replies /\
     replies = [question_reply "q1_a" "Are they breathing?";
                question_reply "q2_a" "Is there any severe bleeding?";
                diagnosis_reply text] /\
     (length replies <= 6)%nat).
Proof.
  split; [reflexivity|]. split; [|split].
  - eexists. split; reflexivity.
  - do 2 eexists. split; [reflexivity|]. split; [reflexivity|].
    split; [vm_compute; reflexivity|]. split; [reflexivity|]. simpl. lia.
  - do 2 eexists. split; [reflexivity|]. split; [reflexivity|].
    split; [vm_compute; reflexivity|]. split; [reflexivity|]. simpl. lia.
Qed.

(** ** The symptom classifier *)

Lemma seq_getitem_0_cons {A} (x : A) l : seq_getitem (x :: l) 0 = Ok x.
Proof.
  unfold seq_getitem. cbn [length Z.ltb Z.compare orb].
  destruct (Z.leb_spec (Z.of_nat (S (length l))) 0) as [H|H]; [lia|reflexivity].
Qed.

Lemma subscript_str_dict d k :
  subscript_str (PDict d) k =
  match d !! k with Some v => Ok v | None => Raise (KeyError (PStr k)) end.
Proof. reflexivity. Qed.

Lemma subscript_str_not_dict v k :
  (forall d, v <> PDict d) -> subscript_str v k = Raise TypeError.
Proof. destruct v; try reflexivity. intros H. by destruct (H d). Qed.

Lemma subscript_int_str_then_key {B} s k (f : pyval -> exc B) :
  exists e, (v ← subscript_int (PStr s) 0; w ← subscript_str v k; f w) = Raise e.
Proof.
  cbn [subscript_int]. destruct (seq_getitem (codepoints s) 0) as [c|e].
  - rewrite !bind_Ok. cbn [subscript_str]. rewrite bind_Raise. eauto.
  - rewrite !bind_Raise. eauto.
Qed.

(** The subscript chain yields a text exactly on the bodies of the expected
    shape. *)
Lemma ai_match_of_spec body :
  match response_text body with
  | Some r => ai_match_of body = Ok (strip r)
  | None => exists e, ai_match_of body = Raise e
  end.
Proof.
  unfold ai_match_of, response_text.
  destruct body as [| | | |s0| |d]; try (cbn [subscript_str]; rewrite bind_Raise; eauto).
  rewrite subscript_str_dict.
  destruct (d !! "candidates") as [cs|]; [|rewrite bind_Raise; eauto].
  rewrite bind_Ok.
  destruct cs as [| | | |s1|l1|d1];
    try (cbn [subscript_int]; rewrite bind_Raise; eauto); [apply subscript_int_str_then_key|].
  destruct l1 as [|c1 l1]; [cbn; eauto|].
  cbn [subscript_int]. rewrite seq_getitem_0_cons, bind_Ok.
  destruct c1 as [| | | |s2| |candidate];
    try (cbn [subscript_str]; rewrite bind_Raise; eauto).
  rewrite subscript_str_dict.
  destruct (candidate !! "content") as [ct|]; [|rewrite bind_Raise; eauto].
  rewrite bind_Ok.
  destruct ct as [| | | |s3| |content];
    try (cbn [subscript_str]; rewrite bind_Raise; eauto).
  rewrite subscript_str_dict.
  destruct (content !! "parts") as [ps|]; [|rewrite bind_Raise; eauto].
  rewrite bind_Ok.
  destruct ps as [| | | |s4|l4|d4];
    try (cbn [subscript_int]; rewrite bind_Raise; eauto); [apply subscript_int_str_then_key|].
  destruct l4 as [|p l4]; [cbn; eauto|].
  cbn [subscript_int]. rewrite seq_getitem_0_cons, bind_Ok.
  destruct p as [| | | |s5| |part];
    try (cbn [subscript_str]; rewrite bind_Raise; eauto).
  rewrite subscript_str_dict.
  destruct (part !! "text") as [t|]; [|rewrite bind_Raise; eauto].
  rewrite bind_Ok.
  destruct t; cbn [method_strip]; eauto.
Qed.

Lemma try_except_Raise {A} (c : exc A) e h : c = Raise e -> try_except c h = h e.
Proof. by intros ->. Qed.

Lemma raise_for_status_error response :
  (400 <= status_code response < 600)%Z ->
  raise_for_status response = Raise (HTTPError (status_code response)).
Proof.
  intros [H1 H2]. unfold raise_for_status.
  apply Z.leb_le in H1. apply Z.ltb_lt in H2. by rewrite H1, H2.
Qed.

Lemma raise_for_status_ok response :
  ~ (400 <= status_code response < 600)%Z -> raise_for_status response = Ok tt.
Proof.
  intros H. unfold raise_for_status.
  destruct (Z.leb_spec 400 (status_code response));
    destruct (Z.ltb_spec (status_code response) 600); simpl; try reflexivity.
  destruct H. lia.
Qed.

Lemma call_ai_unfold requests_post symptoms :
  call_ai_for_symptom_check requests_post symptoms =
  try_except
    (response ← post requests_post symptoms;
     _ ← raise_for_status response;
     result ← Response_json response;
     ai_match ← ai_match_of result;
     entry_for ai_match)
    (fun _ => Ok "start").
Proof. reflexivity. Qed.

(** Every outcome of the call is a failure or an answer text. *)
Lemma outcome_cases o : call_failed o \/ exists r, call_returned o r.
Proof.
  destruct o as [e|response]; [left; constructor|].
  destruct (decide (400 <= status_code response < 600)%Z) as [Hs|Hs];
    [left; by constructor|].
  destruct (json_body response) as [body|] eqn:Hb; [|left; by apply failed_malformed].
  destruct (response_text body) as [r|] eqn:Hr.
  - right. exists r, response, body. done.
  - left. by eapply failed_missing_field.
Qed.

Lemma call_ai_failed requests_post symptoms :
  call_failed (requests_post symptoms) ->
  call_ai_for_symptom_check requests_post symptoms = Ok "start".
Proof.
  intros Hf. rewrite call_ai_unfold. unfold post.
  destruct Hf as [e|response Hs|response Hb|response body Hb Hr].
  - reflexivity.
  - rewrite bind_Ok, raise_for_status_error by done. reflexivity.
  - rewrite bind_Ok. destruct (raise_for_status response) as [[]|e]; [|reflexivity].
    rewrite bind_Ok. unfold Response_json. rewrite Hb. reflexivity.
  - rewrite bind_Ok. destruct (raise_for_status response) as [[]|e]; [|reflexivity].
    rewrite bind_Ok. unfold Response_json. rewrite Hb, bind_Ok.
    pose proof (ai_match_of_spec body) as Hspec. rewrite Hr in Hspec.
    destruct Hspec as [e ->]. reflexivity.
Qed.

Lemma entry_for_ids ai_match : exists id, entry_for ai_match = Ok id /\ id ∈ entry_ids.
Proof.
  unfold entry_for, entry_ids.
  repeat case_bool_decide; eexists; (split; [reflexivity|]);
    rewrite !elem_of_cons; tauto.
Qed.

Lemma call_ai_returned requests_post symptoms r :
  call_returned (requests_post symptoms) r ->
  call_ai_for_symptom_check requests_post symptoms = entry_for (strip r).
Proof.
  intros (response & body & Ho & Hs & Hb & Hr).
  rewrite call_ai_unfold. unfold post. rewrite Ho, bind_Ok.
  rewrite raise_for_status_ok, bind_Ok by done.
  unfold Response_json. rewrite Hb, bind_Ok.
  pose proof (ai_match_of_spec body) as Hspec. rewrite Hr in Hspec.
  rewrite Hspec, bind_Ok.
  destruct (entry_for_ids (strip r)) as (id & -> & _). reflexivity.
Qed.

(** C1 (as the code has it): whatever the symptoms, when the external call
    fails, that is when the request raises, the status is one that
    [raise_for_status] rejects (400 to 599), the body is not JSON, or the
    body lacks the expected fields, [call_ai_for_symptom_check] returns
    ['start'] and raises nothing. *)
Theorem classifier_falls_back_on_failure
    (requests_post : pyval -> post_outcome) (symptoms : pyval) :
  call_failed (requests_post symptoms) ->
  call_ai_for_symptom_check requests_post symptoms = Ok "start".
Proof. apply call_ai_failed. Qed.

Lemma classifier_falls_back_on_failure_witness :
  call_ai_for_symptom_check (fun _ => PostRaises RequestException)
                            (PStr "chest pain") = Ok "start" /\
  call_ai_for_symptom_check
    (fun _ => PostReturns {| status_code := 503; json_body := None |})
    (PStr "chest pain") = Ok "start" /\
  call_ai_for_symptom_check
    (fun _ => PostReturns {| status_code := 200; json_body := None |})
    (PStr "chest pain") = Ok "start" /\
  call_ai_for_symptom_check
    (fun _ => PostReturns {| status_code := 200;
                             json_body := Some (PDict {[ "candidates" := PList [] ]}) |})
    (PStr "chest pain") = Ok "start".
Proof.
  split; [|split; [|split]].
  - apply (classifier_falls_back_on_failure
             (fun _ => PostRaises RequestException) (PStr "chest pain")).
    apply failed_request.
  - apply (classifier_falls_back_on_failure
             (fun _ => PostReturns {| status_code := 503; json_body := None |})
             (PStr "chest pain")).
    apply failed_status. simpl. lia.
  - apply (classifier_falls_back_on_failure
             (fun _ => PostReturns {| status_code := 200; json_body := None |})
             (PStr "chest pain")).
    apply failed_malformed. reflexivity.
  - apply (classifier_falls_back_on_failure
             (fun _ => PostReturns
                         {| status_code := 200;
                            json_body := Some (PDict {[ "candidates" := PList [] ]}) |})
             (PStr "chest pain")).
    eapply failed_missing_field; reflexivity.
Defined.

(** C1, as stated, fails: 300 is no success status, yet
    [raise_for_status] lets it pass, and with a well-formed body the
    classifier returns the mapped id, not ['start']. *)
Lemma other_status_is_not_a_failure :
  ~ (200 <= 300 < 300)%Z /\
  call_ai_for_symptom_check
    (fun _ => PostReturns
       {| status_code := 300;
          json_body :=
            Some (PDict {[ "candidates" :=
                    PList [PDict {[ "content" :=
                      PDict {[ "parts" := PList [PDict {[ "text" := PStr "Stroke" ]}] ]} ]}] ]}) |})
    (PStr "slurred speech") = Ok "q4_a" /\
  Ok "q4_a" <> Ok (A:=pystr) "start".
Proof.
  split; [lia|]. split; [vm_compute; reflexivity|discriminate].
Qed.

Lemma entry_mapping_labels label :
  is_Some (diagnosis_categories !! label) <-> exists id, (label, id) ∈ entry_mapping.
Proof.
  rewrite <- elem_of_dom.
  assert (dom diagnosis_categories =@{gset pystr} list_to_set entry_mapping.*1)
    as -> by compute_done.
  rewrite elem_of_list_to_set, list_elem_of_fmap. split.
  - intros ([l id] & -> & H). by exists id.
  - intros [id H]. by exists (label, id).
Qed.

Lemma entry_for_mapped label id :
  (label, id) ∈ entry_mapping -> entry_for label = Ok id.
Proof.
  unfold entry_mapping. rewrite !elem_of_cons, elem_of_nil.
  intros H. repeat destruct H as [H|H]; try done; by injection H as -> ->.
Qed.

Lemma entry_for_unmapped label :
  (forall id, (label, id) ∉ entry_mapping) -> entry_for label = Ok "start".
Proof.
  intros H. unfold entry_for. rewrite bool_decide_eq_false_2; [done|].
  rewrite entry_mapping_labels. intros [id Hid]. by apply (H id).
Qed.

(** C2: when the call succeeds with the text [r], the result is decided by
    [r] trimmed: a known label (a key of [diagnosis_categories]) gives the
    question id the if/elif chain pairs with it, ['Heart Attack'] giving
    ['q3_a']; any other text, ['No Match'] and the empty text included,
    gives ['start']. *)
Theorem classifier_maps_trimmed_label
    (requests_post : pyval -> post_outcome) (symptoms : pyval) (r : pystr) :
  call_returned (requests_post symptoms) r ->
  (forall label id, (label, id) ∈ entry_mapping -> strip r = label ->
     call_ai_for_symptom_check requests_post symptoms = Ok id) /\
  (strip r = "Heart Attack" ->
     call_ai_for_symptom_check requests_post symptoms = Ok "q3_a") /\
  (diagnosis_categories !! strip r = None ->
     call_ai_for_symptom_check requests_post symptoms = Ok "start") /\
  (strip r = "No Match" \/ strip r = "" ->
     call_ai_for_symptom_check requests_post symptoms = Ok "start") /\
  (forall label, is_Some (diagnosis_categories !! label) <->
                 exists id, (label, id) ∈ entry_mapping).
Proof.
  intros Hr. rewrite (call_ai_returned _ _ _ Hr).
  split; [|split; [|split; [|split]]].
  - intros label id Hin <-. by apply entry_for_mapped.
  - intros ->. reflexivity.
  - intros Hnone. apply entry_for_unmapped. intros id Hid.
    assert (is_Some (diagnosis_categories !! strip r)) as [x Hx]
      by (apply entry_mapping_labels; eauto).
    congruence.
  - intros [-> | ->]; reflexivity.
  - apply entry_mapping_labels.
Qed.

Lemma service_reply_returned text : call_returned (service_reply text) text.
Proof.
  eexists _, _. split; [reflexivity|]. split; [simpl; lia|].
  split; reflexivity.
Qed.

Lemma classifier_maps_trimmed_label_witness :
  call_ai_for_symptom_check (fun _ => service_reply "Heart Attack")
    (PStr "severe chest pain, clutching chest") = Ok "q3_a" /\
  call_ai_for_symptom_check (fun _ => service_reply " Stroke ")
    (PStr "slurred speech") = Ok "q4_a" /\
  call_ai_for_symptom_check (fun _ => service_reply "No Match")
    (PStr "a cough") = Ok "start" /\
  call_ai_for_symptom_check (fun _ => service_reply "heart attack")
    (PStr "chest pain") = Ok "start".
Proof.
  split; [|split; [|split]].
  - destruct (classifier_maps_trimmed_label (fun _ => service_reply "Heart Attack")
                (PStr "severe chest pain, clutching chest") "Heart Attack"
                (service_reply_returned _)) as (_ & H & _).
    apply H. reflexivity.
  - destruct (classifier_maps_trimmed_label (fun _ => service_reply " Stroke ")
                (PStr "slurred speech") " Stroke "
                (service_reply_returned _)) as (H & _).
    apply (H "Stroke"); [|reflexivity].
    unfold entry_mapping. rewrite !elem_of_cons. tauto.
  - destruct (classifier_maps_trimmed_label (fun _ => service_reply "No Match")
                (PStr "a cough") "No Match"
                (service_reply_returned _)) as (_ & _ & _ & H & _).
    apply H. left. reflexivity.
  - destruct (classifier_maps_trimmed_label (fun _ => service_reply "heart attack")
                (PStr "chest pain") "heart attack"
                (service_reply_returned _)) as (_ & _ & H & _).
    apply H. reflexivity.
Defined.

Lemma entry_ids_questions id :
  id ∈ entry_ids ->
  exists node question,
    questions !! id = Some node /\ node !! "question" = Some question /\
    dict_getitem (default node (questions !! id)) (PStr "question") = Ok question /\
    diagnoses !! id = None /\
    forall label, diagnosis_categories !! label <> Some id.
Proof.
  assert (map_Forall (fun _ leaf => bool_decide (leaf ∉ entry_ids) = true)
                     diagnosis_categories) as Hcat by compute_done.
  intros Hid.
  assert (forall label, diagnosis_categories !! label <> Some id) as Hno.
  { intros label Hl. apply Hcat in Hl. by apply bool_decide_eq_true in Hl. }
  revert Hid. unfold entry_ids. rewrite !elem_of_cons, elem_of_nil.
  intros H. repeat destruct H as [H|H]; try done; subst id;
    do 2 eexists; (repeat split; [reflexivity..|exact Hno]).
Qed.

(** C9: for every outcome of the external call the classifier returns one
    of the eight ids ['start'], ['q1_a'], ..., ['q6_a'].  Each is a key of
    [questions] and none is a leaf id, in particular none of the values of
    [diagnosis_categories]; so [questions.get] in [symptom_check] finds the
    node without its default, and the reply pairs the id with the text of
    that same node. *)
Theorem classifier_returns_question_id
    (requests_post : pyval -> post_outcome) (symptoms : pyval) :
  exists id node question,
    call_ai_for_symptom_check requests_post symptoms = Ok id /\
    id ∈ ["start"; "q1_a"; "q1_b"; "q2_a"; "q3_a"; "q4_a"; "q5_a"; "q6_a"] /\
    questions !! id = Some node /\
    node !! "question" = Some question /\
    diagnoses !! id = None /\
    (forall label, diagnosis_categories !! label <> Some id) /\
    (forall d, d !! "symptoms" = Some symptoms -> truthy symptoms = true ->
       symptom_check requests_post (PDict d) = Ok (question_reply id question)).
Proof.
  assert (exists id, call_ai_for_symptom_check requests_post symptoms = Ok id /\
                     id ∈ entry_ids) as (id & Hcall & Hid).
  { destruct (outcome_cases (requests_post symptoms)) as [Hf|[r Hr]].
    - exists "start". split; [by apply call_ai_failed|].
      unfold entry_ids. apply elem_of_cons. by left.
    - rewrite (call_ai_returned _ _ _ Hr). apply entry_for_ids. }
  destruct (entry_ids_questions id Hid) as (node & question & Hn & Hq & Hget & Hd & Hc).
  exists id, node, question. repeat (split; [done|]).
  intros d Hs Ht. unfold symptom_check. cbn [method_get].
  rewrite bind_Ok, Hs. cbn [default from_option Datatypes.id].
  rewrite Ht. cbn [negb].
  rewrite Hcall, bind_Ok.
  assert (exists fallback, dict_getitem questions (PStr "start") = Ok fallback)
    as [fallback ->] by (eexists; reflexivity).
  rewrite bind_Ok, Hn. cbn [default from_option Datatypes.id].
  rewrite (dict_getitem_lookup _ _ _ Hq).
  reflexivity.
Qed.

Lemma classifier_returns_question_id_witness :
  exists id question,
    call_ai_for_symptom_check (fun _ => service_reply "  Seizure ")
      (PStr "shaking") = Ok id /\
    symptom_check (fun _ => service_reply "  Seizure ")
      (PDict {[ "symptoms" := PStr "shaking" ]}) = Ok (question_reply id question).
Proof.
  destruct (classifier_returns_question_id
              (fun _ => service_reply "  Seizure ") (PStr "shaking"))
    as (id & node & question & Hcall & _ & _ & _ & _ & _ & Hcheck).
  exists id, question. split; [exact Hcall|].
  apply Hcheck; reflexivity.
Defined.

(** ** Start-up *)

(** C8: when [GEMINI_API_KEY] is absent from the environment, or present
    and empty, the import of the module raises [ValueError]: no key and no
    application come out of it, under any reading of the environment. *)
Theorem missing_key_refuses_to_start (environ : gmap pystr pystr) :
  environ !! "GEMINI_API_KEY" = None \/ environ !! "GEMINI_API_KEY" = Some "" ->
  GEMINI_API_KEY environ =
  Raise (ValueError "GEMINI_API_KEY environment variable not set.") /\
  app environ = Raise (ValueError "GEMINI_API_KEY environment variable not set.") /\
  (forall served, app environ <> Ok served).
Proof.
  intros H.
  assert (GEMINI_API_KEY environ =
          Raise (ValueError "GEMINI_API_KEY environment variable not set.")) as Hkey.
  { unfold GEMINI_API_KEY, getenv. destruct H as [-> | ->]; reflexivity. }
  assert (app environ =
          Raise (ValueError "GEMINI_API_KEY environment variable not set.")) as Happ.
  { unfold app. rewrite Hkey. reflexivity. }
  split; [done|]. split; [done|]. intros served. rewrite Happ. discriminate.
Qed.

Lemma missing_key_refuses_to_start_witness :
  app ∅ = Raise (ValueError "GEMINI_API_KEY environment variable not set.") /\
  app {[ "GEMINI_API_KEY" := "" ]} =
  Raise (ValueError "GEMINI_API_KEY environment variable not set.").
Proof.
  split.
  - destruct (missing_key_refuses_to_start ∅) as (_ & H & _); [|exact H].
    left. reflexivity.
  - destruct (missing_key_refuses_to_start {[ "GEMINI_API_KEY" := "" ]})
      as (_ & H & _); [|exact H].
    right. reflexivity.
Defined.

(** With a non-empty key the module loads and serves both routes. *)
Lemma present_key_starts environ key :
  environ !! "GEMINI_API_KEY" = Some key -> key <> "" ->
  GEMINI_API_KEY environ = Ok key /\ is_ok (app environ) = true.
Proof.
  intros Hk Hne. unfold app, GEMINI_API_KEY, getenv. rewrite Hk.
  destruct key as [[|c cs]]; [done|]. split; reflexivity.
Qed.

(** * Further properties *)

(** ** The two tables *)

Lemma question_rows : map_Forall (fun n node => question_row n node = true) questions.
Proof. compute_done. Qed.

Lemma leaf_rows : map_Forall (fun id _ => leaf_row id = true) diagnoses.
Proof. compute_done. Qed.

Lemma question_row_inv n node :
  questions !! n = Some node ->
  startswith n "diag_" = false /\ diagnoses !! n = None /\
  dom node = {[ "question"; "yes"; "no" ]} /\
  exists q, node !! "question" = Some q /\
            startswith q "diag_" = false /\ questions !! q = None.
Proof.
  intros Hn. pose proof (question_rows n node Hn) as H. unfold question_row in H.
  destruct (node !! "question") as [q|]; [|by rewrite andb_false_r in H].
  apply andb_true_iff in H as [H Hq]. apply andb_true_iff in H as [H Hdom].
  apply andb_true_iff in H as [Hp Hd]. apply andb_true_iff in Hq as [Hqp Hqn].
  apply negb_true_iff in Hp, Hqp.
  apply bool_decide_eq_true in Hd, Hdom, Hqn.
  split; [done|]. split; [done|]. split; [done|]. by exists q.
Qed.

Lemma leaf_row_inv id :
  is_Some (diagnoses !! id) -> startswith id "diag_" = true /\ questions !! id = None.
Proof.
  intros [text Hid]. pose proof (leaf_rows id text Hid) as H. unfold leaf_row in H.
  apply andb_true_iff in H as [H1 H2]. by apply bool_decide_eq_true in H2.
Qed.

(** X5: the test [next_q_id.startswith('diag_')] of [answer] tells the two
    tables apart: no key of [questions] has the prefix or is a key of
    [diagnoses], every key of [diagnoses] has the prefix and is no key of
    [questions]. *)
Theorem diag_prefix_separates_tables (id : pystr) :
  (is_Some (questions !! id) ->
   startswith id "diag_" = false /\ diagnoses !! id = None) /\
  (is_Some (diagnoses !! id) ->
   startswith id "diag_" = true /\ questions !! id = None) /\
  (in_tree id -> (startswith id "diag_" = true <-> is_Some (diagnoses !! id))).
Proof.
  split; [|split].
  - intros [node Hn]. apply question_row_inv in Hn. tauto.
  - apply leaf_row_inv.
  - intros [[node Hn]|Hd].
    + apply question_row_inv in Hn as (Hp & Hnone & _).
      rewrite Hp, Hnone. split; [done|]. by intros [x Hx].
    + pose proof (leaf_row_inv id Hd) as [Hp _]. by rewrite Hp.
Qed.

Lemma diag_prefix_separates_tables_witness :
  (startswith "q4_a" "diag_" = false /\ diagnoses !! "q4_a" = None) /\
  (startswith "diag_seizure" "diag_" = true /\ questions !! "diag_seizure" = None).
Proof.
  split.
  - apply (diag_prefix_separates_tables "q4_a"). vm_compute. eauto.
  - apply (diag_prefix_separates_tables "diag_seizure"). vm_compute. eauto.
Defined.

(** ** The answer endpoint, entry by entry *)

Lemma reply_for_leaf id text :
  diagnoses !! id = Some text -> reply_for id = Ok (diagnosis_reply text).
Proof.
  intros Hid. unfold reply_for.
  destruct (leaf_row_inv id (ex_intro _ text Hid)) as [-> _].
  by rewrite (dict_getitem_lookup _ _ _ Hid).
Qed.

Lemma reply_for_question id node :
  questions !! id = Some node ->
  exists q, node !! "question" = Some q /\ reply_for id = Ok (question_reply id q).
Proof.
  intros Hid. unfold reply_for.
  destruct (question_row_inv id node Hid) as (-> & _ & _ & q & Hq & _).
  exists q. split; [done|].
  by rewrite (dict_getitem_lookup _ _ _ Hid), bind_Ok, (dict_getitem_lookup _ _ _ Hq).
Qed.

Lemma answers_not_initial a : a ∈ answers -> PStr a <> PStr "initial".
Proof.
  unfold answers. rewrite !elem_of_cons, elem_of_nil.
  intros [-> | [-> | []]]; discriminate.
Qed.

Lemma transition_inv n a m :
  transition n a = Some m ->
  exists node, questions !! n = Some node /\ node !! a = Some m.
Proof.
  unfold transition. destruct (questions !! n) as [node|]; [|done].
  intros H. by exists node.
Qed.

Lemma transition_in_tree n a m :
  a ∈ answers -> transition n a = Some m -> in_tree m.
Proof.
  intros Ha (node & Hn & Hm)%transition_inv.
  pose proof (closed_nodes n node Hn) as Hc. unfold closed_node in Hc.
  rewrite forallb_forall in Hc.
  specialize (Hc a (proj1 (list_elem_of_In _ _) Ha)). rewrite Hm in Hc.
  by apply bool_decide_eq_true in Hc.
Qed.

Lemma answer_transition n a m :
  a ∈ answers -> transition n a = Some m ->
  answer (answer_request (PStr n) (PStr a)) = reply_for m.
Proof.
  intros Ha (node & Hn & Hm)%transition_inv.
  rewrite answer_not_initial by by apply answers_not_initial.
  by rewrite (dict_getitem_lookup _ _ _ Hn), bind_Ok, (dict_getitem_lookup _ _ _ Hm).
Qed.

(** X1: for a question [n] and an answer ['yes'] or ['no'] with
    [questions[n][a] = m], the endpoint replies with the text of [m] when
    [m] is a key of [diagnoses], and otherwise with the id [m] and the
    question text stored under [m]. *)
Theorem answer_follows_table (n a m : pystr) :
  a ∈ ["yes"; "no"] -> transition n a = Some m ->
  match diagnoses !! m with
  | Some text =>
      answer (answer_request (PStr n) (PStr a)) = Ok (diagnosis_reply text)
  | None =>
      exists node q,
        questions !! m = Some node /\ node !! "question" = Some q /\
        answer (answer_request (PStr n) (PStr a)) = Ok (question_reply m q)
  end.
Proof.
  intros Ha Ht. rewrite (answer_transition n a m Ha Ht).
  destruct (diagnoses !! m) as [text|] eqn:Hd; [by apply reply_for_leaf|].
  destruct (transition_in_tree n a m Ha Ht) as [[node Hn]|[x Hx]]; [|congruence].
  destruct (reply_for_question m node Hn) as (q & Hq & Hr). by exists node, q.
Qed.

Lemma answer_follows_table_witness :
  (exists node q,
     questions !! "q4_a" = Some node /\ node !! "question" = Some q /\
     answer (answer_request (PStr "q3_a") (PStr "no")) = Ok (question_reply "q4_a" q)) /\
  answer (answer_request (PStr "q3_a") (PStr "yes")) =
  Ok (diagnosis_reply "Possible Heart Attack. Keep the person calm and seated. Loosen any tight clothing. You should have already called for emergency services.").
Proof.
  split.
  - apply (answer_follows_table "q3_a" "no" "q4_a"); [|reflexivity].
    apply elem_of_cons. right. apply elem_of_cons. by left.
  - apply (answer_follows_table "q3_a" "yes" "diag_heart_attack"); [|reflexivity].
    apply elem_of_cons. by left.
Defined.

Lemma reply_for_inv id reply :
  reply_for id = Ok reply ->
  (exists text, diagnoses !! id = Some text /\ reply = diagnosis_reply text) \/
  (exists node q, questions !! id = Some node /\ node !! "question" = Some q /\
                  reply = question_reply id q).
Proof.
  unfold reply_for. destruct (startswith id "diag_").
  - destruct (dict_getitem diagnoses (PStr id)) as [text|e] eqn:Hd; [|done].
    apply dict_getitem_Ok in Hd as (s & [= <-] & Hd).
    rewrite bind_Ok. intros [= <-]. left. by exists text.
  - destruct (dict_getitem questions (PStr id)) as [node|e] eqn:Hn; [|done].
    apply dict_getitem_Ok in Hn as (s & [= <-] & Hn). rewrite bind_Ok.
    destruct (dict_getitem node (PStr "question")) as [q|e] eqn:Hq; [|done].
    apply dict_getitem_Ok in Hq as (s & [= <-] & Hq).
    rewrite bind_Ok. intros [= <-]. right. by exists node, q.
Qed.

Lemma answer_Ok_inv data reply :
  answer data = Ok reply -> exists d id, data = PDict d /\ reply_for id = Ok reply.
Proof.
  destruct data as [| | | | | |d]; try discriminate.
  rewrite answer_unfold. intros H. exists d.
  destruct (if eq_str (default PNone (d !! "answer")) "initial" then Ok "start"
            else dict_getitem questions (default PNone (d !! "current_q_id"))
                 ≫= λ node, dict_getitem node (default PNone (d !! "answer")))
    as [id|e]; [|done].
  by exists id.
Qed.

(** X2: a successful reply of [answer] is either a diagnosis whose text is
    a value of [diagnoses], or a question whose id is a key of [questions]
    and whose text is the one stored under that key. *)
Theorem answer_reply_shape (data reply : pyval) :
  answer data = Ok reply ->
  (exists leaf text, diagnoses !! leaf = Some text /\ reply = diagnosis_reply text) \/
  (exists n node q, questions !! n = Some node /\ node !! "question" = Some q /\
                    reply = question_reply n q).
Proof.
  intros (d & id & _ & Hr)%answer_Ok_inv.
  apply reply_for_inv in Hr as [(text & ? & ?)|(node & q & ? & ? & ?)]; eauto 10.
Qed.

Lemma answer_reply_shape_witness :
  (exists leaf text,
     diagnoses !! leaf = Some text /\
     question_reply "q3_a" "Are they clutching their chest or experiencing severe chest pain?" =
     diagnosis_reply text) \/
  (exists n node q,
     questions !! n = Some node /\ node !! "question" = Some q /\
     question_reply "q3_a" "Are they clutching their chest or experiencing severe chest pain?" =
     question_reply n q).
Proof.
  apply (answer_reply_shape (answer_request (PStr "q2_a") (PStr "no"))).
  vm_compute. reflexivity.
Defined.

Lemma reply_field_eq (r r' : pyval) (k : pystr) :
  r = r' -> method_get r k = method_get r' k.
Proof. by intros ->. Qed.

Lemma question_reply_inj n q n' q' :
  question_reply n q = question_reply n' q' -> n = n' /\ q = q'.
Proof.
  intros H.
  pose proof (reply_field_eq _ _ "next_q_id" H) as H1.
  pose proof (reply_field_eq _ _ "question" H) as H2.
  vm_compute in H1, H2. split; congruence.
Qed.

Lemma question_reply_not_diagnosis n q text : question_reply n q <> diagnosis_reply text.
Proof.
  intros H. pose proof (reply_field_eq _ _ "status" H) as H1.
  vm_compute in H1. discriminate.
Qed.

Lemma question_reply_not_error n q : question_reply n q <> error_reply.
Proof.
  intros H. pose proof (reply_field_eq _ _ "status" H) as H1.
  vm_compute in H1. discriminate.
Qed.

Lemma answers_yes_no a : a ∈ answers -> PStr a = PStr "yes" \/ PStr a = PStr "no".
Proof.
  unfold answers. rewrite !elem_of_cons, elem_of_nil.
  intros [-> | [-> | []]]; auto.
Qed.

(** X3: the id in a question reply can always be answered: it is a key of
    [questions], and a further request with it and ['yes'] or ['no']
    succeeds. *)
Theorem answer_question_reply_continues (data : pyval) (n q a : pystr) :
  answer data = Ok (question_reply n q) -> a ∈ ["yes"; "no"] ->
  is_Some (questions !! n) /\
  exists reply, answer (answer_request (PStr n) (PStr a)) = Ok reply.
Proof.
  intros (d & id & _ & Hr)%answer_Ok_inv Ha.
  apply reply_for_inv in Hr as [(text & _ & Hr)|(node & q' & Hn & _ & Hr)].
  - by apply question_reply_not_diagnosis in Hr.
  - apply question_reply_inj in Hr as [-> ->].
    split; [by exists node|].
    apply answer_yes_no; [|by apply answers_yes_no].
    exists id. split; [done|]. by exists node.
Qed.

Lemma answer_question_reply_continues_witness :
  is_Some (questions !! "q2_a") /\
  exists reply, answer (answer_request (PStr "q2_a") (PStr "no")) = Ok reply.
Proof.
  apply (answer_question_reply_continues
           (answer_request (PStr "q1_a") (PStr "yes")) "q2_a"
           "Is there any severe bleeding?" "no").
  - vm_compute. reflexivity.
  - apply elem_of_cons. right. apply elem_of_cons. by left.
Defined.

Lemma question_level n : is_Some (questions !! n) -> (level n <= 6)%nat.
Proof.
  intros [node Hn].
  pose proof (closed_nodes n node Hn) as Hc. unfold closed_node in Hc.
  simpl in Hc. destruct (node !! "yes") as [m|] eqn:Hm; [|done].
  assert (edge n m) as He.
  { left. unfold transition. rewrite Hn. exact Hm. }
  apply edge_descends in He.
  assert (level m <= 7)%nat; [|lia].
  unfold level. destruct (_ !! m) as [k|] eqn:Hk; [|done].
  revert Hk. generalize m k. apply map_Forall_lookup. compute_done.
Qed.

Lemma replay_cons cur a rest :
  replay cur (a :: rest) =
  reply ← answer (answer_request cur a);
  match reply with
  | PDict d =>
      match d !! "next_q_id" with
      | Some next => replies ← replay next rest; Ok (reply :: replies)
      | None => Ok [reply]
      end
  | _ => Ok [reply]
  end.
Proof. reflexivity. Qed.

(** X4: a caller who starts at a question and keeps answering ['yes'] or
    ['no'] never meets an error, sends at most [7 - level n] requests
    (seven from the root), and ends on a diagnosis once it has that many
    answers to give. *)
Theorem replay_reaches_diagnosis (n : pystr) (path : list pystr) :
  is_Some (questions !! n) ->
  Forall (fun a => a ∈ ["yes"; "no"]) path ->
  exists replies,
    replay (PStr n) (PStr <$> path) = Ok replies /\
    (length replies <= length path)%nat /\
    (level n + length replies <= 7)%nat /\
    ((7 <= level n + length path)%nat ->
     exists leaf text,
       diagnoses !! leaf = Some text /\ last replies = Some (diagnosis_reply text)).
Proof.
  intros Hn Hpath. revert n Hn.
  induction Hpath as [|a path Ha Hpath IH]; intros n Hn.
  - exists []. pose proof (question_level n Hn).
    split; [reflexivity|]. split; [done|]. split; [simpl; lia|].
    simpl. lia.
  - pose proof (question_level n Hn) as Hlevel.
    destruct Hn as [node Hn].
    pose proof (closed_nodes n node Hn) as Hc. unfold closed_node in Hc.
    rewrite forallb_forall in Hc.
    specialize (Hc a (proj1 (list_elem_of_In _ _) Ha)).
    destruct (node !! a) as [m|] eqn:Hm; [|done]. clear Hc.
    assert (transition n a = Some m) as Ht by (unfold transition; by rewrite Hn).
    assert (level n < level m)%nat as Hlt.
    { apply edge_descends. unfold edge.
      apply elem_of_cons in Ha as [-> | Ha]; [by left|].
      apply elem_of_cons in Ha as [-> | Ha]; [by right|].
      by apply elem_of_nil in Ha. }
    rewrite fmap_cons, replay_cons, (answer_transition n a m Ha Ht).
    destruct (transition_in_tree n a m Ha Ht) as [[node' Hn']|[text Hd]].
    + destruct (reply_for_question m node' Hn') as (q & _ & ->).
      rewrite bind_Ok. unfold question_reply at 1.
      change (({[ "status" := PStr "question"; "next_q_id" := PStr m;
                  "question" := PStr q ]} : gmap pystr pyval) !! "next_q_id")
        with (Some (PStr m)).
      destruct (IH m (ex_intro _ node' Hn')) as (replies & -> & Hlen & Hlev & Hlast).
      exists (question_reply m q :: replies).
      split; [reflexivity|]. split; [simpl; lia|]. split; [simpl; lia|].
      intros Hlong. destruct Hlast as (leaf & text & Hleaf & Hl); [simpl in Hlong; lia|].
      exists leaf, text. split; [done|].
      destruct replies as [|r replies]; [done|]. exact Hl.
    + rewrite (reply_for_leaf m text Hd), bind_Ok. unfold diagnosis_reply at 1.
      change (({[ "status" := PStr "diagnosis"; "diagnosis" := PStr text ]}
                : gmap pystr pyval) !! "next_q_id") with (@None pyval).
      exists [diagnosis_reply text].
      split; [reflexivity|]. split; [simpl; lia|]. split; [simpl; lia|].
      intros _. by exists m, text.
Qed.

Lemma replay_reaches_diagnosis_witness :
  exists replies,
    replay (PStr "start")
           (PStr <$> ["yes"; "yes"; "no"; "no"; "no"; "no"; "yes"; "no"]) = Ok replies /\
    (length replies <= 8)%nat /\
    (level "start" + length replies <= 7)%nat /\
    ((7 <= level "start" + 8)%nat ->
     exists leaf text,
       diagnoses !! leaf = Some text /\ last replies = Some (diagnosis_reply text)).
Proof.
  apply (replay_reaches_diagnosis "start"
           ["yes"; "yes"; "no"; "no"; "no"; "no"; "yes"; "no"]).
  - vm_compute. eauto.
  - repeat constructor.
Defined.

(** ** The shape of the tree *)

Lemma edges_spec n a m :
  (n, a, m) ∈ edges <-> a ∈ answers /\ transition n a = Some m.
Proof.
  unfold edges, transition. rewrite list_elem_of_bind. split.
  - intros ([n' node] & Hin & Hrow). apply elem_of_map_to_list in Hrow.
    apply list_elem_of_omap in Hin as (a' & Ha' & Hm).
    destruct (node !! a') as [m'|] eqn:Hm'; [|done].
    injection Hm as -> -> ->. split; [done|]. by rewrite Hrow.
  - intros [Ha Ht]. destruct (questions !! n) as [node|] eqn:Hn; [|done].
    exists (n, node). split; [|by apply elem_of_map_to_list].
    apply list_elem_of_omap. exists a. split; [done|]. simpl in Ht. by rewrite Ht.
Qed.

Lemma NoDup_fmap_eq {A B} (f : A -> B) (l : list A) x y :
  NoDup (f <$> l) -> x ∈ l -> y ∈ l -> f x = f y -> x = y.
Proof.
  induction l as [|z l IH]; [by intros _ ?%elem_of_nil|].
  rewrite fmap_cons, NoDup_cons, !elem_of_cons.
  intros [Hz Hl] [-> | Hx] [-> | Hy] Hf; auto.
  - destruct Hz. rewrite Hf. apply list_elem_of_fmap. by exists y.
  - destruct Hz. rewrite <- Hf. apply list_elem_of_fmap. by exists x.
Qed.

Lemma targets_NoDup : NoDup (snd <$> edges).
Proof. compute_done. Qed.

Lemma targets_cover :
  (dom questions ∪ dom diagnoses) ∖ {[ "start" ]} ⊆@{gset pystr} list_to_set (snd <$> edges).
Proof. compute_done. Qed.

Lemma start_no_target : "start" ∉ snd <$> edges.
Proof. compute_done. Qed.

(** X6: the transitions form a tree.  No yes/no transition leads to
    ['start'], and every other question or diagnosis is the target of
    exactly one pair of a question and an answer. *)
Theorem tree_unique_parent (id : pystr) :
  in_tree id ->
  (forall n a, id = "start" -> a ∈ ["yes"; "no"] -> transition n a <> Some id) /\
  (id <> "start" ->
   exists n a, a ∈ ["yes"; "no"] /\ transition n a = Some id /\
     forall n' a', a' ∈ ["yes"; "no"] -> transition n' a' = Some id ->
                   n' = n /\ a' = a).
Proof.
  intros Hid. split.
  - intros n a -> Ha Ht. apply start_no_target.
    apply list_elem_of_fmap. exists (n, a, "start"). split; [done|].
    by apply edges_spec.
  - intros Hne.
    assert (id ∈@{gset pystr} list_to_set (snd <$> edges)) as Hin%elem_of_list_to_set.
    { refine (targets_cover id _).
      apply elem_of_difference. split.
      - apply elem_of_union. destruct Hid as [H|H]; apply elem_of_dom in H; auto.
      - by intros ->%elem_of_singleton. }
    apply list_elem_of_fmap in Hin as ([[n a] m] & -> & Hin).
    pose proof Hin as [Ha Ht]%edges_spec.
    exists n, a. split; [done|]. split; [done|].
    intros n' a' Ha' Ht'.
    assert ((n', a', m) = (n, a, m)) as [= -> ->]; [|done].
    apply (NoDup_fmap_eq snd edges); [apply targets_NoDup| |done|done].
    by apply edges_spec.
Qed.

Lemma tree_unique_parent_witness :
  exists n a, a ∈ ["yes"; "no"] /\ transition n a = Some "q5_a" /\
    forall n' a', a' ∈ ["yes"; "no"] -> transition n' a' = Some "q5_a" ->
                  n' = n /\ a' = a.
Proof.
  apply (tree_unique_parent "q5_a").
  - left. vm_compute. eauto.
  - discriminate.
Defined.

(** ** Errors of the answer endpoint *)

Lemma dict_getitem_missing {V} (d : gmap pystr V) k :
  (forall s, k = PStr s -> d !! s = None) ->
  dict_getitem d k = Raise (if hashable k then KeyError k else TypeError).
Proof.
  intros H. destruct k as [| | | |s| |]; try reflexivity.
  simpl. by rewrite (H s eq_refl).
Qed.

(** X7: with an answer other than ['initial'], a current node id that is
    no key of [questions] makes the request raise [KeyError] of that id,
    or [TypeError] when the id is a list or a dict.  In particular a
    diagnosis id cannot be answered: leaves are terminal. *)
Theorem answer_unknown_node_error (cur ans : pyval) :
  ans <> PStr "initial" ->
  (~ question_id cur ->
   answer (answer_request cur ans) =
   Raise (if hashable cur then KeyError cur else TypeError)) /\
  (forall leaf, cur = PStr leaf -> is_Some (diagnoses !! leaf) ->
   answer (answer_request cur ans) = Raise (KeyError (PStr leaf))).
Proof.
  intros Hi.
  assert (~ question_id cur ->
          answer (answer_request cur ans) =
          Raise (if hashable cur then KeyError cur else TypeError)) as Hunknown.
  { intros Hq. rewrite answer_not_initial by exact Hi.
    rewrite dict_getitem_missing; [reflexivity|].
    intros s ->. destruct (questions !! s) as [node|] eqn:Hs; [|reflexivity].
    destruct Hq. exists s. split; [reflexivity|]. by exists node. }
  split; [exact Hunknown|].
  intros leaf -> Hleaf. rewrite Hunknown; [reflexivity|].
  intros (n & [= <-] & [node Hn]).
  apply leaf_row_inv in Hleaf as [_ Hnone]. congruence.
Qed.

Lemma answer_unknown_node_error_witness :
  answer (answer_request (PStr "q7_a") (PStr "yes")) = Raise (KeyError (PStr "q7_a")) /\
  answer (answer_request (PList []) (PStr "yes")) = Raise TypeError /\
  answer (answer_request PNone (PStr "no")) = Raise (KeyError PNone) /\
  answer (answer_request (PStr "diag_stroke") (PStr "yes")) =
  Raise (KeyError (PStr "diag_stroke")).
Proof.
  assert (forall s, questions !! s = None -> ~ question_id (PStr s)) as Hnot.
  { intros s Hs (n & Hn & [node Hnode]). injection Hn as <-.
    rewrite Hs in Hnode. discriminate Hnode. }
  split; [|split; [|split]].
  - destruct (answer_unknown_node_error (PStr "q7_a") (PStr "yes")) as [H _];
      [discriminate|].
    apply H. apply Hnot. vm_compute. reflexivity.
  - destruct (answer_unknown_node_error (PList []) (PStr "yes")) as [H _];
      [discriminate|].
    apply H. intros (n & Hn & _). discriminate Hn.
  - destruct (answer_unknown_node_error PNone (PStr "no")) as [H _];
      [discriminate|].
    apply H. intros (n & Hn & _). discriminate Hn.
  - destruct (answer_unknown_node_error (PStr "diag_stroke") (PStr "yes")) as [_ H];
      [discriminate|].
    apply (H "diag_stroke"); [reflexivity|].
    eexists. vm_compute. reflexivity.
Defined.

Lemma node_keys (node : gmap pystr pystr) s :
  dom node =@{gset pystr} {[ "question"; "yes"; "no" ]} ->
  is_Some (node !! s) -> s = "question" \/ s = "yes" \/ s = "no".
Proof.
  intros Hdom Hs. apply elem_of_dom in Hs. rewrite Hdom in Hs.
  apply elem_of_union in Hs as [Hs|Hs]; [apply elem_of_union in Hs as [Hs|Hs]|];
    apply elem_of_singleton in Hs; auto.
Qed.

(** X8: on a question, an answer other than ['initial'], ['yes'] and
    ['no'] raises [TypeError] when it is a list or a dict, [KeyError] of
    the question text when it is ['question'] (the text is read as the
    next id and looked up), and [KeyError] of the answer otherwise. *)
Theorem answer_bad_answer_error (n : pystr) (node : gmap pystr pystr) (ans : pyval) :
  questions !! n = Some node ->
  ans <> PStr "initial" -> ans <> PStr "yes" -> ans <> PStr "no" ->
  exists q,
    node !! "question" = Some q /\
    answer (answer_request (PStr n) ans) =
    Raise (if negb (hashable ans) then TypeError
           else if eq_str ans "question" then KeyError (PStr q)
           else KeyError ans).
Proof.
  intros Hn Hi Hy Hno.
  destruct (question_row_inv n node Hn) as (_ & _ & Hdom & q & Hq & Hqp & Hqn).
  exists q. split; [exact Hq|].
  rewrite answer_not_initial by exact Hi.
  rewrite (dict_getitem_lookup _ _ _ Hn), bind_Ok.
  destruct ans as [| | | |s| |]; try reflexivity.
  cbn [hashable negb eq_str].
  destruct (node !! s) as [v|] eqn:Hs.
  - destruct (node_keys node s Hdom (ex_intro _ v Hs)) as [-> | [-> | ->]];
      [|by destruct Hy|by destruct Hno].
    assert (v = q) as -> by congruence.
    rewrite (dict_getitem_lookup _ _ _ Hs), bind_Ok.
    unfold reply_for. rewrite Hqp. cbn [dict_getitem]. rewrite Hqn.
    reflexivity.
  - assert (s <> "question") as Hsq by (intros ->; congruence).
    cbn [dict_getitem]. rewrite Hs, bind_Raise.
    by rewrite bool_decide_eq_false_2.
Qed.

Lemma answer_bad_answer_error_witness :
  answer (answer_request (PStr "start") (PStr "question")) =
  Raise (KeyError (PStr "Are they conscious and responsive?")) /\
  answer (answer_request (PStr "start") (PStr "Yes")) = Raise (KeyError (PStr "Yes")) /\
  answer (answer_request (PStr "start") PNone) = Raise (KeyError PNone) /\
  answer (answer_request (PStr "start") (PBool true)) = Raise (KeyError (PBool true)) /\
  answer (answer_request (PStr "start") (PList [PStr "yes"])) = Raise TypeError.
Proof.
  assert (questions !! "start" =
          Some {[ "question" := "Are they conscious and responsive?";
                  "yes" := "q1_a"; "no" := "q1_b" ]}) as Hstart
    by (vm_compute; reflexivity).
  assert (forall ans reply,
            ans <> PStr "initial" -> ans <> PStr "yes" -> ans <> PStr "no" ->
            (forall q, q = "Are they conscious and responsive?" ->
               Raise (if negb (hashable ans) then TypeError
                      else if eq_str ans "question" then KeyError (PStr q)
                      else KeyError ans) = reply) ->
            answer (answer_request (PStr "start") ans) = reply) as Hcase.
  { intros ans reply Hi Hy Hno Hreply.
    destruct (answer_bad_answer_error "start" _ ans Hstart Hi Hy Hno)
      as (q & Hq & ->).
    apply Hreply. vm_compute in Hq. congruence. }
  repeat split; apply Hcase; try discriminate; intros q ->; reflexivity.
Defined.

(** X9: both endpoints call [data.get]: a body that is not a JSON object
    (null, a number, a string, a list) raises [AttributeError]. *)
Theorem endpoints_need_a_dict
    (requests_post : pyval -> post_outcome) (data : pyval) :
  (forall d, data <> PDict d) ->
  answer data = Raise AttributeError /\
  symptom_check requests_post data = Raise AttributeError.
Proof.
  intros H. destruct data as [| | | | | |d]; try (split; reflexivity).
  by destruct (H d).
Qed.

Lemma endpoints_need_a_dict_witness :
  answer (PList [PStr "start"; PStr "yes"]) = Raise AttributeError /\
  symptom_check (fun _ => service_reply "Stroke") PNone = Raise AttributeError.
Proof.
  split.
  - apply (endpoints_need_a_dict (fun _ => service_reply "Stroke")
             (PList [PStr "start"; PStr "yes"])).
    discriminate.
  - apply (endpoints_need_a_dict (fun _ => service_reply "Stroke") PNone).
    discriminate.
Defined.


(** ** The symptom endpoint *)

Lemma truthy_falsy v : truthy v = false <-> falsy v.
Proof.
  split.
  - destruct v as [|b|z|bits|[cps]|l|d]; simpl; intros H.
    + constructor.
    + subst b. constructor.
    + apply negb_false_iff, Z.eqb_eq in H. subst z. constructor.
    + apply negb_false_iff, N.eqb_eq in H. by constructor.
    + destruct cps; [constructor|discriminate H].
    + destruct l; [constructor|discriminate H].
    + apply negb_false_iff, Nat.eqb_eq, map_size_empty_iff in H. subst d.
      constructor.
  - destruct 1 as [| | |bits Hb| | |]; try reflexivity.
    simpl. apply negb_false_iff, N.eqb_eq, Hb.
Qed.

Lemma symptom_check_unfold requests_post d :
  symptom_check requests_post (PDict d) =
  if negb (truthy (default PNone (d !! "symptoms"))) then Ok error_reply
  else
    next_question_id ←
      call_ai_for_symptom_check requests_post (default PNone (d !! "symptoms"));
    fallback ← dict_getitem questions (PStr "start");
    question ← dict_getitem (default fallback (questions !! next_question_id))
                            (PStr "question");
    Ok (question_reply next_question_id question).
Proof. reflexivity. Qed.

Lemma call_ai_entry requests_post symptoms :
  exists id, call_ai_for_symptom_check requests_post symptoms = Ok id /\ id ∈ entry_ids.
Proof.
  destruct (outcome_cases (requests_post symptoms)) as [Hf|[r Hr]].
  - exists "start". split; [by apply call_ai_failed|].
    unfold entry_ids. apply elem_of_cons. by left.
  - rewrite (call_ai_returned _ _ _ Hr). apply entry_for_ids.
Qed.

Lemma symptom_check_truthy requests_post d :
  truthy (default PNone (d !! "symptoms")) = true ->
  exists id node q,
    id ∈ entry_ids /\ questions !! id = Some node /\ node !! "question" = Some q /\
    call_ai_for_symptom_check requests_post (default PNone (d !! "symptoms")) = Ok id /\
    symptom_check requests_post (PDict d) = Ok (question_reply id q).
Proof.
  intros Ht. rewrite symptom_check_unfold, Ht. cbn [negb].
  destruct (call_ai_entry requests_post (default PNone (d !! "symptoms")))
    as (id & Hcall & Hid).
  destruct (entry_ids_questions id Hid) as (node & q & Hn & Hq & _).
  exists id, node, q. rewrite Hcall, bind_Ok.
  assert (exists fallback, dict_getitem questions (PStr "start") = Ok fallback)
    as [fallback ->] by (eexists; reflexivity).
  rewrite bind_Ok, Hn. cbn [default from_option Datatypes.id].
  rewrite (dict_getitem_lookup _ _ _ Hq), bind_Ok. auto.
Qed.

(** X10: on a JSON object [symptom_check] never raises.  It replies with
    the error message exactly when [symptoms] is missing or falsy, without
    regard to the service, and otherwise with one of the eight entry
    questions and that question's own text. *)
Theorem symptom_check_replies
    (requests_post : pyval -> post_outcome) (d : gmap pystr pyval) :
  (falsy (default PNone (d !! "symptoms")) /\
   symptom_check requests_post (PDict d) = Ok error_reply) \/
  (~ falsy (default PNone (d !! "symptoms")) /\
   exists id node q,
     id ∈ ["start"; "q1_a"; "q1_b"; "q2_a"; "q3_a"; "q4_a"; "q5_a"; "q6_a"] /\
     questions !! id = Some node /\ node !! "question" = Some q /\
     symptom_check requests_post (PDict d) = Ok (question_reply id q)).
Proof.
  destruct (truthy (default PNone (d !! "symptoms"))) eqn:Ht.
  - right. split.
    + intros Hf%truthy_falsy. congruence.
    + destruct (symptom_check_truthy requests_post d Ht)
        as (id & node & q & Hid & Hn & Hq & _ & Hs).
      exists id, node, q. auto.
  - left. split; [by apply truthy_falsy|].
    rewrite symptom_check_unfold, Ht. reflexivity.
Qed.

Lemma Ok_inj {A} (a b : A) : Ok a = Ok b -> a = b.
Proof.
  intros H.
  exact (f_equal (fun c => match c with Ok x => x | Raise _ => a end) H).
Qed.

(** X11: the two endpoints compose: the id that [symptom_check] returns
    with a question can be sent to [answer] with ['yes'] or ['no'], and
    that request succeeds. *)
Theorem symptom_check_then_answer
    (requests_post : pyval -> post_outcome) (data : pyval) (id q a : pystr) :
  symptom_check requests_post data = Ok (question_reply id q) ->
  a ∈ ["yes"; "no"] ->
  exists reply, answer (answer_request (PStr id) (PStr a)) = Ok reply.
Proof.
  intros Hs Ha. destruct data as [| | | | | |d]; try discriminate Hs.
  destruct (truthy (default PNone (d !! "symptoms"))) eqn:Ht.
  2:{ rewrite symptom_check_unfold, Ht in Hs. apply Ok_inj in Hs. symmetry in Hs.
      by apply question_reply_not_error in Hs. }
  destruct (symptom_check_truthy requests_post d Ht)
    as (id' & node & q' & _ & Hn & _ & _ & Hq).
  rewrite Hq in Hs. apply Ok_inj in Hs.
  apply question_reply_inj in Hs as [-> ->].
  apply answer_yes_no; [|by apply answers_yes_no].
  exists id. split; [reflexivity|]. by exists node.
Qed.

Lemma symptom_check_replies_witness :
  symptom_check (fun _ => service_reply "Stroke") (PDict {[ "symptoms" := PStr "" ]}) =
  Ok error_reply /\
  symptom_check (fun _ => service_reply "Stroke") (PDict ∅) = Ok error_reply /\
  exists id q,
    symptom_check (fun _ => service_reply "Stroke")
                  (PDict {[ "symptoms" := PStr " " ]}) = Ok (question_reply id q).
Proof.
  split; [|split].
  - destruct (symptom_check_replies (fun _ => service_reply "Stroke")
                {[ "symptoms" := PStr "" ]}) as [[_ H]|[H _]]; [exact H|].
    destruct H. constructor.
  - destruct (symptom_check_replies (fun _ => service_reply "Stroke") ∅)
      as [[_ H]|[H _]]; [exact H|].
    destruct H. constructor.
  - destruct (symptom_check_replies (fun _ => service_reply "Stroke")
                {[ "symptoms" := PStr " " ]})
      as [[H _]|(_ & id & node & q & _ & _ & _ & H)].
    + apply truthy_falsy in H. discriminate H.
    + by exists id, q.
Defined.

Lemma symptom_check_then_answer_witness :
  exists reply, answer (answer_request (PStr "q4_a") (PStr "yes")) = Ok reply.
Proof.
  apply (symptom_check_then_answer (fun _ => service_reply "Stroke")
           (PDict {[ "symptoms" := PStr "slurred speech" ]}) "q4_a"
           "Are they exhibiting facial drooping, arm weakness, or slurred speech?"
           "yes").
  - vm_compute. reflexivity.
  - apply elem_of_cons. by left.
Defined.

(** ** The classifier *)

Lemma entry_mapping_not_start label : (label, "start") ∉ entry_mapping.
Proof.
  unfold entry_mapping. rewrite !elem_of_cons, elem_of_nil.
  intros H. repeat destruct H as [H|H]; try discriminate H. exact H.
Qed.

(** X12: the classifier returns ['start'] exactly when the call failed or
    the trimmed text is no key of [diagnosis_categories]; a known label
    never falls through the if/elif chain to the fallback. *)
Theorem classifier_start_iff
    (requests_post : pyval -> post_outcome) (symptoms : pyval) :
  call_ai_for_symptom_check requests_post symptoms = Ok "start" <->
  call_failed (requests_post symptoms) \/
  exists r, call_returned (requests_post symptoms) r /\
            diagnosis_categories !! strip r = None.
Proof.
  split.
  - intros Hstart.
    destruct (outcome_cases (requests_post symptoms)) as [Hf|[r Hr]]; [by left|].
    right. exists r. split; [exact Hr|].
    destruct (diagnosis_categories !! strip r) as [leaf|] eqn:Hl; [|reflexivity].
    destruct (proj1 (entry_mapping_labels (strip r))) as [id Hid];
      [by exists leaf|].
    rewrite (call_ai_returned _ _ _ Hr), (entry_for_mapped _ _ Hid) in Hstart.
    apply Ok_inj in Hstart. subst id.
    by apply entry_mapping_not_start in Hid.
  - intros [Hf|(r & Hr & Hnone)]; [by apply call_ai_failed|].
    rewrite (call_ai_returned _ _ _ Hr). apply entry_for_unmapped.
    intros id Hid.
    destruct (proj2 (entry_mapping_labels (strip r))) as [leaf Hleaf];
      [by exists id|].
    congruence.
Qed.

Lemma classifier_start_iff_witness :
  call_ai_for_symptom_check (fun _ => service_reply "Unsure") (PStr "a cough") =
  Ok "start" /\
  (call_failed (PostRaises RequestException) \/
   exists r, call_returned (PostRaises RequestException) r /\
             diagnosis_categories !! strip r = None).
Proof.
  split.
  - apply (classifier_start_iff (fun _ => service_reply "Unsure") (PStr "a cough")).
    right. exists "Unsure". split; [apply service_reply_returned|].
    vm_compute. reflexivity.
  - apply (classifier_start_iff (fun _ => PostRaises RequestException) (PStr "a cough")).
    reflexivity.
Defined.

Lemma lstrip_spaces ws l :
  Forall (fun c => is_space c = true) ws -> lstrip_cps (ws ++ l) = lstrip_cps l.
Proof. induction 1 as [|c ws Hc _ IH]; [reflexivity|]. simpl. by rewrite Hc. Qed.

Lemma lstrip_app l w :
  lstrip_cps (l ++ w) =
  if forallb is_space l then lstrip_cps w else lstrip_cps l ++ w.
Proof.
  induction l as [|c l IH]; [reflexivity|].
  simpl. destruct (is_space c); [exact IH|reflexivity].
Qed.

Lemma lstrip_all_spaces l : forallb is_space l = true -> lstrip_cps l = [].
Proof.
  induction l as [|c l IH]; [reflexivity|].
  simpl. destruct (is_space c); [exact IH|discriminate].
Qed.

Lemma rstrip_spaces l ws :
  Forall (fun c => is_space c = true) ws -> rstrip_cps (l ++ ws) = rstrip_cps l.
Proof.
  intros Hws. unfold rstrip_cps. rewrite rev_app_distr, lstrip_spaces; [reflexivity|].
  by apply Forall_rev.
Qed.

Lemma strip_padded ws1 l ws2 :
  Forall (fun c => is_space c = true) ws1 ->
  Forall (fun c => is_space c = true) ws2 ->
  strip (Str (ws1 ++ l ++ ws2)) = strip (Str l).
Proof.
  intros H1 H2. unfold strip. cbn [codepoints]. f_equal.
  rewrite lstrip_spaces by exact H1. rewrite lstrip_app.
  destruct (forallb is_space l) eqn:Hl.
  - rewrite (lstrip_all_spaces l Hl), lstrip_all_spaces; [reflexivity|].
    apply forallb_forall. intros c Hc. rewrite Forall_forall in H2.
    apply H2. by apply list_elem_of_In.
  - by apply rstrip_spaces.
Qed.

(** X13: white space around the text of the service, Unicode white space
    included, does not change the result: the padded text trims to the same
    string and the classifier returns the same id. *)
Theorem classifier_ignores_padding
    (post1 post2 : pyval -> post_outcome) (s1 s2 : pyval)
    (ws1 ws2 : list N) (r : pystr) :
  Forall (fun c => is_space c = true) ws1 ->
  Forall (fun c => is_space c = true) ws2 ->
  call_returned (post1 s1) (Str (ws1 ++ codepoints r ++ ws2)) ->
  call_returned (post2 s2) r ->
  strip (Str (ws1 ++ codepoints r ++ ws2)) = strip r /\
  call_ai_for_symptom_check post1 s1 = call_ai_for_symptom_check post2 s2.
Proof.
  intros H1 H2 Hr1 Hr2.
  assert (strip (Str (ws1 ++ codepoints r ++ ws2)) = strip r) as Hs
    by (destruct r as [cps]; by apply strip_padded).
  split; [exact Hs|].
  by rewrite (call_ai_returned _ _ _ Hr1), (call_ai_returned _ _ _ Hr2), Hs.
Qed.

Lemma classifier_ignores_padding_witness :
  strip (Str ([10; 32; 160; 8195]%N ++ codepoints "Seizure" ++ [9; 13; 10; 12288]%N)) =
  strip "Seizure" /\
  call_ai_for_symptom_check
    (fun _ => service_reply
                (Str ([10; 32; 160; 8195]%N ++ codepoints "Seizure" ++ [9; 13; 10; 12288]%N)))
    (PStr "shaking") =
  call_ai_for_symptom_check (fun _ => service_reply "Seizure") (PStr "shaking").
Proof.
  apply (classifier_ignores_padding
           (fun _ => service_reply
              (Str ([10; 32; 160; 8195]%N ++ codepoints "Seizure" ++ [9; 13; 10; 12288]%N)))
           (fun _ => service_reply "Seizure") (PStr "shaking") (PStr "shaking")
           [10; 32; 160; 8195]%N [9; 13; 10; 12288]%N "Seizure").
  - repeat constructor.
  - repeat constructor.
  - apply service_reply_returned.
  - apply service_reply_returned.
Defined.

Lemma category_rows :
  map_Forall (fun label leaf => category_row label leaf = true) diagnosis_categories.
Proof. compute_done. Qed.

(** X14: the two tables of the classifier agree with the tree.  For every
    label, the entry question the if/elif chain returns has the diagnosis
    that [diagnosis_categories] pairs with the label one answer away, and
    that answer makes the endpoint reply with its text. *)
Theorem entry_question_decides_category (label leaf : pystr) :
  diagnosis_categories !! label = Some leaf ->
  exists id a text,
    (label, id) ∈ entry_mapping /\ entry_for label = Ok id /\
    a ∈ ["yes"; "no"] /\ transition id a = Some leaf /\
    diagnoses !! leaf = Some text /\
    answer (answer_request (PStr id) (PStr a)) = Ok (diagnosis_reply text).
Proof.
  intros Hl. pose proof (category_rows label leaf Hl) as Hrow.
  unfold category_row in Hrow.
  destruct ((list_to_map entry_mapping : gmap pystr pystr) !! label)
    as [id|] eqn:Hid; [|discriminate Hrow].
  apply elem_of_list_to_map_2 in Hid.
  apply andb_true_iff in Hrow as [Ha Hd].
  apply existsb_exists in Ha as (a & Ha%list_elem_of_In & Ht).
  apply bool_decide_eq_true in Ht, Hd. destruct Hd as [text Hd].
  exists id, a, text.
  split; [exact Hid|]. split; [by apply entry_for_mapped|].
  split; [exact Ha|]. split; [exact Ht|]. split; [exact Hd|].
  rewrite (answer_transition id a leaf Ha Ht). by apply reply_for_leaf.
Qed.

Lemma entry_question_decides_category_witness :
  exists id a text,
    ("Cardiac Arrest", id) ∈ entry_mapping /\ entry_for "Cardiac Arrest" = Ok id /\
    a ∈ ["yes"; "no"] /\ transition id a = Some "diag_unconscious_not_breathing" /\
    diagnoses !! "diag_unconscious_not_breathing" = Some text /\
    answer (answer_request (PStr id) (PStr a)) = Ok (diagnosis_reply text).
Proof.
  apply (entry_question_decides_category "Cardiac Arrest"
           "diag_unconscious_not_breathing").
  vm_compute. reflexivity.
Defined.

(** ** One path per node *)

Lemma parent_unique n a n' a' m :
  a ∈ answers -> a' ∈ answers ->
  transition n a = Some m -> transition n' a' = Some m -> n = n' /\ a = a'.
Proof.
  intros Ha Ha' Ht Ht'.
  assert ((n, a, m) = (n', a', m)) as [= -> ->]; [|by split].
  apply (NoDup_fmap_eq snd edges); [apply targets_NoDup| | |reflexivity];
    by apply edges_spec.
Qed.

Lemma start_not_target n a : a ∈ answers -> transition n a <> Some "start".
Proof.
  intros Ha Ht. apply start_no_target.
  apply list_elem_of_fmap. exists (n, a, "start"). split; [reflexivity|].
  by apply edges_spec.
Qed.

Lemma walk_snoc n path a :
  walk n (path ++ [a]) = k ← walk n path; transition k a.
Proof. unfold walk. by rewrite foldl_app. Qed.

(** X15: a node is reached from ['start'] by one sequence of answers only:
    two yes/no walks that end on the same node are equal. *)
Theorem walk_unique (p1 p2 : list pystr) (m : pystr) :
  Forall (fun a => a ∈ ["yes"; "no"]) p1 ->
  Forall (fun a => a ∈ ["yes"; "no"]) p2 ->
  walk "start" p1 = Some m -> walk "start" p2 = Some m -> p1 = p2.
Proof.
  revert p2 m. induction p1 as [|a p1 IH] using rev_ind; intros p2 m H1 H2 Hw1 Hw2.
  - injection Hw1 as <-.
    destruct p2 as [|a' p2 _] using rev_ind; [reflexivity|].
    apply Forall_app in H2 as [_ Ha']. rewrite Forall_singleton in Ha'.
    rewrite walk_snoc in Hw2.
    destruct (walk "start" p2) as [k|]; [|discriminate Hw2].
    change (transition k a' = Some "start") in Hw2.
    destruct (start_not_target k a' Ha' Hw2).
  - apply Forall_app in H1 as [H1 Ha]. rewrite Forall_singleton in Ha.
    rewrite walk_snoc in Hw1.
    destruct (walk "start" p1) as [k|] eqn:Hk; [|discriminate Hw1].
    change (transition k a = Some m) in Hw1.
    destruct p2 as [|a' p2 _] using rev_ind.
    + injection Hw2 as <-. destruct (start_not_target k a Ha Hw1).
    + apply Forall_app in H2 as [H2 Ha']. rewrite Forall_singleton in Ha'.
      rewrite walk_snoc in Hw2.
      destruct (walk "start" p2) as [k'|] eqn:Hk'; [|discriminate Hw2].
      change (transition k' a' = Some m) in Hw2.
      destruct (parent_unique k a k' a' m Ha Ha' Hw1 Hw2) as [-> ->].
      f_equal. by apply (IH p2 k').
Qed.

Lemma walk_unique_witness :
  ["yes"; "yes"; "no"; "no"; "yes"] = ["yes"; "yes"; "no"; "no"; "yes"] :> list pystr.
Proof.
  apply (walk_unique ["yes"; "yes"; "no"; "no"; "yes"]
           ["yes"; "yes"; "no"; "no"; "yes"] "diag_stroke").
  - repeat constructor.
  - repeat constructor.
  - vm_compute. reflexivity.
  - vm_compute. reflexivity.
Defined.
